(** * The workflow ReAct agent: a shallow embedding of [graph.ts] and [tools.ts]

    The agent is a two-node LangGraph state graph ([callModel], [tools])
    with one conditional edge ([routeModelOutput]) and six tools that talk
    to a REST workflow store through axios.  The embedding keeps the
    JavaScript data as it is in the source (JSON values, optional fields,
    strings) and threads the outside world (remote store, chat model,
    clock) explicitly. *)

From Stdlib Require Import String Ascii List ZArith Lia Bool.
Import ListNotations.
Set Warnings "-register-all".
Local Open Scope string_scope.
Local Open Scope list_scope.

(** ** JavaScript values and the string primitives the source uses *)

Module JS.

(** JSON data; [undefined] is the [None] of [option json].  Numbers are
    the integer-valued ones: no schema of the tools mentions a number. *)
Inductive json : Type :=
| JNull
| JBool (b : bool)
| JNum (z : Z)
| JStr (s : string)
| JArr (elems : list json)
| JObj (fields : list (string * json)).

Definition value := option json.
Definition undefined : value := None.

(** [o.k] on an object literal; any other receiver has no such property. *)
Fixpoint assoc (k : string) (fields : list (string * json)) : value :=
  match fields with
  | [] => undefined
  | (k', v) :: rest => if String.eqb k k' then Some v else assoc k rest
  end.

Definition get (k : string) (o : json) : value :=
  match o with
  | JObj fields => assoc k fields
  | _ => undefined
  end.

(** An object literal [{k1, k2}] as it reaches the wire: axios serialises
    the body as JSON, which leaves out the keys bound to [undefined]. *)
Fixpoint object_literal (props : list (string * value)) : json :=
  match props with
  | [] => JObj []
  | (k, Some v) :: rest =>
      match object_literal rest with
      | JObj fs => JObj ((k, v) :: fs)
      | other => other
      end
  | (_, None) :: rest => object_literal rest
  end.

(** ToBoolean. *)
Definition truthy (v : value) : bool :=
  match v with
  | None => false
  | Some JNull => false
  | Some (JBool b) => b
  | Some (JNum z) => negb (z =? 0)%Z
  | Some (JStr s) => negb (String.eqb s EmptyString)
  | Some (JArr _) => true
  | Some (JObj _) => true
  end.

(** [a || b]: the left operand when it is truthy, the right one otherwise. *)
Definition or (a b : value) : value := if truthy a then a else b.

(** [a > b] on numbers. *)
Definition gt (a b : Z) : value := Some (JBool (a >? b)%Z).

(** [a === b] against a string literal. *)
Definition strict_eq_str (a : value) (lit : string) : bool :=
  match a with
  | Some (JStr s) => String.eqb s lit
  | _ => false
  end.

(** [xs[i]] on an array: [undefined] outside [0 .. length-1]. *)
Definition index {A : Type} (xs : list A) (i : Z) : option A :=
  if (i <? 0)%Z then None else nth_error xs (Z.to_nat i).

(** Decimal numeral of an integer, for template literals. *)
Fixpoint digits (fuel : nat) (n : N) (acc : string) : string :=
  match fuel with
  | O => acc
  | S fuel' =>
      let d := Ascii.ascii_of_N (48 + N.modulo n 10) in
      let q := N.div n 10 in
      if (q =? 0)%N then String d acc else digits fuel' q (String d acc)
  end.

Definition number_to_string (z : Z) : string :=
  let n := Z.abs_N z in
  let body := digits (S (N.to_nat (N.log2 n))) n EmptyString in
  if (z <? 0)%Z then "-" ++ body else body.

(** ToString, as a template literal [`${v}`] applies it. *)
Fixpoint to_string_json (v : json) : string :=
  match v with
  | JNull => "null"
  | JBool true => "true"
  | JBool false => "false"
  | JNum z => number_to_string z
  | JStr s => s
  | JArr elems =>
      String.concat ","
        (List.map (fun e => match e with
                            | JNull => EmptyString
                            | _ => to_string_json e
                            end) elems)
  | JObj _ => "[object Object]"
  end.

Definition to_string (v : value) : string :=
  match v with
  | None => "undefined"
  | Some j => to_string_json j
  end.

(** *** [String.prototype.replace] with a string pattern *)

Fixpoint starts_with (pat s : string) : bool :=
  match pat, s with
  | EmptyString, _ => true
  | String _ _, EmptyString => false
  | String a pat', String b s' => Ascii.eqb a b && starts_with pat' s'
  end.

Fixpoint skip (n : nat) (s : string) : string :=
  match n, s with
  | O, _ => s
  | S _, EmptyString => EmptyString
  | S n', String _ s' => skip n' s'
  end.

(** The text before and after the first occurrence of [pat] in [s]. *)
Fixpoint split_at_first (pat s : string) : option (string * string) :=
  if starts_with pat s then Some (EmptyString, skip (String.length pat) s)
  else match s with
       | EmptyString => None
       | String c s' =>
           match split_at_first pat s' with
           | Some (before, after) => Some (String c before, after)
           | None => None
           end
       end.

(** GetSubstitution for a pattern without capture groups: [$$], [$&],
    [$`] and [$'] are expanded, every other character is literal. *)
Fixpoint get_substitution (matched before after rep : string) : string :=
  match rep with
  | EmptyString => EmptyString
  | String c rest =>
      if Ascii.eqb c "$" then
        match rest with
        | String d rest' =>
            if Ascii.eqb d "$" then
              String "$" (get_substitution matched before after rest')
            else if Ascii.eqb d "&" then
              matched ++ get_substitution matched before after rest'
            else if Ascii.eqb d "`" then
              before ++ get_substitution matched before after rest'
            else if Ascii.eqb d "'" then
              after ++ get_substitution matched before after rest'
            else String c (get_substitution matched before after rest)
        | EmptyString => String c EmptyString
        end
      else String c (get_substitution matched before after rest)
  end.

(** [s.replace(pat, rep)]: only the first occurrence is replaced. *)
Definition replace (s pat rep : string) : string :=
  match split_at_first pat s with
  | None => s
  | Some (before, after) =>
      before ++ get_substitution pat before after rep ++ after
  end.

(** What "substituting [rep] for the placeholder" means, with no
    interpretation of [rep]. *)
Definition splice (s pat rep : string) : string :=
  match split_at_first pat s with
  | None => s
  | Some (before, after) => before ++ rep ++ after
  end.

Fixpoint occurs (c : ascii) (s : string) : bool :=
  match s with
  | EmptyString => false
  | String d s' => Ascii.eqb c d || occurs c s'
  end.

End JS.
Import JS.

(** ** Argument schemas ([zod]) *)

Module Zod.

(** The schema combinators [tools.ts] uses: [z.string()], [z.array(s)],
    [z.enum([...])] and [z.object({...})].  zod is a dependency of the
    repository; [parse] below follows its documented behaviour for these
    four: a key that is absent parses as [undefined], [z.string()] and
    [z.enum] reject [undefined], [z.array] sets no bound on the length
    unless [.min]/[.nonempty] is chained (the source chains neither), and
    [z.object] keeps the declared keys and drops the others. *)
Inductive schema : Type :=
| ZString
| ZArray (elem : schema)
| ZEnum (options : list string)
| ZObject (shape : list (string * schema)).

Inductive segment : Type :=
| Key (k : string)
| Index (i : nat).

Inductive issue_code : Type :=
| invalid_type (expected received : string)
| invalid_enum_value (options : list string) (received : string).

Record issue : Type := { path : list segment; code : issue_code }.

Definition type_of (v : value) : string :=
  match v with
  | None => "undefined"
  | Some JNull => "null"
  | Some (JBool _) => "boolean"
  | Some (JNum _) => "number"
  | Some (JStr _) => "string"
  | Some (JArr _) => "array"
  | Some (JObj _) => "object"
  end.

Definition wrong_type (p : list segment) (expected : string) (v : value)
  : list issue :=
  [ {| path := p; code := invalid_type expected (type_of v) |} ].

Definition enum_expected (options : list string) : string :=
  String.concat " | " (List.map (fun o => ("'" ++ o ++ "'")%string) options).

(** Joining the outcome of one member with the outcome of the rest: every
    issue is reported, a value comes out only when there is none. *)
Definition both {A B C : Type} (f : A -> B -> C)
  (x : list issue + A) (y : list issue + B) : list issue + C :=
  match x, y with
  | inr a, inr b => inr (f a b)
  | inl e, inr _ => inl e
  | inr _, inl e => inl e
  | inl e1, inl e2 => inl (e1 ++ e2)
  end.

Definition map_ok {A B : Type} (f : A -> B) (x : list issue + A)
  : list issue + B :=
  match x with
  | inl e => inl e
  | inr a => inr (f a)
  end.

(** The members of an array, each under its index. *)
Fixpoint parse_elems (parse_elem : list segment -> value -> list issue + json)
  (p : list segment) (i : nat) (xs : list json) : list issue + list json :=
  match xs with
  | [] => inr []
  | x :: rest =>
      both cons (parse_elem (p ++ [Index i]) (Some x))
           (parse_elems parse_elem p (S i) rest)
  end.

(** The declared keys of an object, in the order of the shape. *)
Fixpoint parse_shape {S : Type}
  (parse_member : S -> list segment -> value -> list issue + json)
  (p : list segment) (fields : list (string * json))
  (shape : list (string * S)) : list issue + list (string * json) :=
  match shape with
  | [] => inr []
  | (k, sk) :: rest =>
      both (fun x r => (k, x) :: r)
           (parse_member sk (p ++ [Key k]) (assoc k fields))
           (parse_shape parse_member p fields rest)
  end.

Fixpoint parse (s : schema) (p : list segment) (v : value) {struct s}
  : list issue + json :=
  match s with
  | ZString =>
      match v with
      | Some (JStr x) => inr (JStr x)
      | _ => inl (wrong_type p "string" v)
      end
  | ZEnum options =>
      match v with
      | Some (JStr x) =>
          if existsb (String.eqb x) options then inr (JStr x)
          else inl [ {| path := p; code := invalid_enum_value options x |} ]
      | _ => inl (wrong_type p (enum_expected options) v)
      end
  | ZArray elem =>
      match v with
      | Some (JArr xs) => map_ok JArr (parse_elems (parse elem) p O xs)
      | _ => inl (wrong_type p "array" v)
      end
  | ZObject shape =>
      match v with
      | Some (JObj fields) => map_ok JObj (parse_shape parse p fields shape)
      | _ => inl (wrong_type p "object" v)
      end
  end.

(** [schema.safeParse(data)]. *)
Definition safeParse (s : schema) (data : json) : list issue + json :=
  parse s [] (Some data).

(** The message of a ZodError: one clause per issue. *)
Definition segment_to_string (g : segment) : string :=
  match g with
  | Key k => k
  | Index i => number_to_string (Z.of_nat i)
  end.

Definition issue_to_string (i : issue) : string :=
  String.concat "." (List.map segment_to_string (path i)) ++ ": " ++
  match code i with
  | invalid_type expected received =>
      if String.eqb received "undefined" then "Required"
      else "Expected " ++ expected ++ ", received " ++ received
  | invalid_enum_value options received =>
      "Invalid enum value. Expected " ++ String.concat " | " options ++
      ", received " ++ received
  end.

End Zod.

(** ** Messages, tool calls and the outside world *)

Definition nl : string := String "010" EmptyString.
Definition dq : string := String "034" EmptyString.

(** An Action Request: [{ name, args, id }]. *)
Record ToolCall : Type :=
  { call_name : string; call_args : json; call_id : string }.

(** What the chat model returns: text and, optionally, tool calls. *)
Record AIMessageChunk : Type :=
  { content : string; tool_calls : option (list ToolCall) }.

Inductive Message : Type :=
| SystemMessage (text : string)
| HumanMessage (text : string)
| AIMessage (text : string) (calls : option (list ToolCall))
| ToolMessage (text : string) (name : string) (tool_call_id : string).

(** [(m as AIMessage).tool_calls]: only an AI message has the field. *)
Definition message_tool_calls (m : Message) : option (list ToolCall) :=
  match m with
  | AIMessage _ calls => calls
  | _ => None
  end.

Inductive Method : Type := GET | POST | PATCH | DELETE.

Record HttpRequest : Type :=
  { method : Method; url : string; body : value }.

(** A 2xx response with its [data], or the failure axios raises (transport
    error or non-success status) with its message. *)
Inductive HttpOutcome : Type :=
| HttpOk (data : json)
| HttpFail (reason : string).

(** The collaborators outside the repository: the workflow store behind
    axios, the chat model, the clock and [JSON.stringify].  [Ext] is the
    state of that outside world; the store and the model may change it. *)
Class Externals : Type :=
  { Ext : Type;
    remote : Ext -> HttpRequest -> Ext * HttpOutcome;
    chat : Ext -> string -> list Message -> Ext * (string + AIMessageChunk);
    toISOString_now : Ext -> string;
    JSON_stringify : json -> string }.

Inductive exn : Type :=
| AxiosError (reason : string)
| ToolInputParsingException (issues : list Zod.issue)
| ToolNotFound (name : string)
| ModelError (reason : string).

(** Modelled from the spec: the text of a failure.  Section 4.1 asks that
    a validation failure describe which fields failed and why, section
    4.2 that an absent operation be reported as unknown, section 7 that a
    remote failure carry its detail. *)
Definition exn_message (e : exn) : string :=
  match e with
  | AxiosError reason => reason
  | ToolInputParsingException issues =>
      ("Received tool input did not match expected schema: " ++
       String.concat "; " (List.map Zod.issue_to_string issues))%string
  | ToolNotFound name => ("Tool " ++ dq ++ name ++ dq ++ " not found.")%string
  | ModelError reason => reason
  end.

Record State : Type := { messages : list Message }.

(** The configuration [ensureConfiguration] returns.  configuration.ts and
    utils.ts are not under src/: the ensured configuration is an argument
    of [callModel], and the model [loadChatModel] loads, with the tools
    bound, is the [chat] collaborator. *)
Record Configuration : Type :=
  { systemPromptTemplate : string; model : string }.

Definition API_BASE_URL : string := "http://localhost:3000/api/workflows".

(** The text that follows the substituted template in the system message
    of [callModel] (graph.ts, lines 25-100). *)
Definition AGENT_INSTRUCTIONS : string :=
  String.concat nl
    [ EmptyString;
      EmptyString;
      "You are a workflow management assistant that helps users organize and track tasks.";
      "You have access to these tools:";
      EmptyString;
      ("1. add_pending_item: Create new tasks in the " ++ dq ++ "to-do" ++ dq ++ " state")%string;
      "   - Requires: title and description";
      "   - Use for: Creating new tasks that need to be done";
      EmptyString;
      ("2. add_completed_item: Create new tasks in the " ++ dq ++ "done" ++ dq ++ " state")%string;
      "   - Requires: title and description";
      "   - Use for: Recording already completed tasks";
      EmptyString;
      "3. get_pending_items: List all pending/to-do tasks";
      "   - Use for: Checking what needs to be done";
      "   - Returns: List of pending tasks with IDs";
      EmptyString;
      "4. get_completed_items: List all completed tasks";
      "   - Use for: Reviewing finished work";
      "   - Returns: List of completed tasks with IDs";
      EmptyString;
      "5. move_items: Change task status between pending and completed";
      ("   - Requires: itemIds (array of IDs) and targetType (" ++ dq ++ "pending" ++ dq ++ " or " ++ dq ++ "completed" ++ dq ++ ")")%string;
      "   - Use for: Marking tasks as done or reopening tasks";
      EmptyString;
      "6. clear_items: Remove all items of a specific type";
      ("   - Requires: type (" ++ dq ++ "pending" ++ dq ++ " or " ++ dq ++ "completed" ++ dq ++ ")")%string;
      "   - Use for: Bulk deletion of all pending or completed tasks";
      "   - Use with caution as this cannot be undone";
      EmptyString;
      "Strategy for common scenarios:";
      EmptyString;
      "1. When asked to create a task:";
      "   - Use add_pending_item for new work";
      "   - Use add_completed_item for finished work";
      "   - Always include both title and description";
      EmptyString;
      "2. When asked about tasks:";
      "   - Use get_pending_items or get_completed_items";
      "   - Parse and summarize the JSON response";
      "   - List tasks with their IDs for reference";
      EmptyString;
      "3. When updating task status:";
      "   - First get current tasks to confirm IDs";
      "   - Then use move_items with correct IDs and target state";
      "   - Confirm the change was successful";
      EmptyString;
      "4. When handling multiple tasks:";
      "   - Process them in order";
      "   - Keep track of task IDs";
      "   - Provide clear summaries of actions taken";
      EmptyString;
      "5. When clearing tasks:";
      "   - Always confirm with the user before using clear_items";
      "   - Specify which type (pending or completed) will be cleared";
      "   - Warn that this action cannot be undone";
      EmptyString;
      "Always:";
      "- Confirm actions with clear responses";
      "- Include task IDs in your responses";
      "- Parse JSON responses into readable format";
      "- Ask for clarification if task details are unclear";
      "- Be cautious with destructive operations like clearing items";
      EmptyString;
      "Response Format Guidelines:";
      ("- Start with a brief summary (e.g., " ++ dq ++ "Found 12 pending tasks, mostly related to code review" ++ dq ++ ")")%string;
      ("- Ask before showing detailed lists (e.g., " ++ dq ++ "Would you like to see all items in detail?" ++ dq ++ ")")%string;
      "- When listing items:";
      "  - Group similar items together";
      ("  - Summarize repeated items (e.g., " ++ dq ++ "8 PR review tasks" ++ dq ++ ")")%string;
      "  - Only show full details when specifically requested";
      "- Keep responses concise and well-organized";
      "- Use natural language instead of rigid formatting";
      "- Avoid showing raw IDs unless necessary for a specific action";
      EmptyString;
      "Remember to always use the correct input format for each tool as shown in the examples above." ].

Section Agent.

Context {X : Externals}.

(** The world a session runs in: the outside state and, as ghost
    instrumentation, the requests sent to the store and the inputs sent to
    the model, oldest first. *)
Record World : Type :=
  { ext : Ext; http_log : list HttpRequest; model_log : list (list Message) }.

(** Effectful code: it may change the world and may throw. *)
Definition Eff (A : Type) : Type := World -> World * (exn + A).

Definition ret {A : Type} (a : A) : Eff A := fun w => (w, inr a).

Definition throw {A : Type} (e : exn) : Eff A := fun w => (w, inl e).

Definition bind {A B : Type} (c : Eff A) (k : A -> Eff B) : Eff B :=
  fun w =>
    match c w with
    | (w', inr a) => k a w'
    | (w', inl e) => (w', inl e)
    end.

Definition try_catch {A : Type} (c : Eff A) (handler : exn -> Eff A) : Eff A :=
  fun w =>
    match c w with
    | (w', inr a) => (w', inr a)
    | (w', inl e) => handler e w'
    end.

Fixpoint for_each {A B : Type} (f : A -> Eff B) (xs : list A) : Eff (list B) :=
  match xs with
  | [] => ret []
  | x :: rest =>
      bind (f x) (fun y => bind (for_each f rest) (fun ys => ret (y :: ys)))
  end.

(** *** axios *)

(** One request to the workflow store.  A failure of the call is thrown,
    as axios does for a transport error or a non-success status. *)
Definition axios_request (req : HttpRequest) : Eff json :=
  fun w =>
    let (e', outcome) := remote (ext w) req in
    let w' := {| ext := e';
                 http_log := http_log w ++ [req];
                 model_log := model_log w |} in
    match outcome with
    | HttpOk data => (w', inr data)
    | HttpFail reason => (w', inl (AxiosError reason))
    end.

Definition axios_post (u : string) (data : value) : Eff json :=
  axios_request {| method := POST; url := u; body := data |}.

Definition axios_get (u : string) : Eff json :=
  axios_request {| method := GET; url := u; body := undefined |}.

Definition axios_patch (u : string) (data : value) : Eff json :=
  axios_request {| method := PATCH; url := u; body := data |}.

Definition axios_delete (u : string) : Eff json :=
  axios_request {| method := DELETE; url := u; body := undefined |}.

(** *** The tools (tools.ts) *)

Record Tool : Type :=
  { tool_name : string;
    description : string;
    schema : Zod.schema;
    func : json -> Eff string }.

Definition itemSchema : Zod.schema :=
  Zod.ZObject [ ("title", Zod.ZString); ("description", Zod.ZString) ].

Definition moveItemsSchema : Zod.schema :=
  Zod.ZObject [ ("itemIds", Zod.ZArray Zod.ZString);
                ("targetType", Zod.ZEnum [ "pending"; "completed" ]) ].

Definition addPendingItem : Tool :=
  {| tool_name := "add_pending_item";
     description := "Add a new pending workflow item";
     schema := itemSchema;
     func := fun input =>
       bind (axios_post (API_BASE_URL ++ "/pending") (Some input))
            (fun response_data => ret (JSON_stringify response_data)) |}.

Definition addCompletedItem : Tool :=
  {| tool_name := "add_completed_item";
     description := "Add a new completed workflow item";
     schema := itemSchema;
     func := fun input =>
       bind (axios_post (API_BASE_URL ++ "/completed") (Some input))
            (fun response_data => ret (JSON_stringify response_data)) |}.

Definition getPendingItems : Tool :=
  {| tool_name := "get_pending_items";
     description := "Get all pending workflow items";
     schema := Zod.ZObject [];
     func := fun _ =>
       bind (axios_get (API_BASE_URL ++ "/pending"))
            (fun response_data => ret (JSON_stringify response_data)) |}.

Definition getCompletedItems : Tool :=
  {| tool_name := "get_completed_items";
     description := "Get all completed workflow items";
     schema := Zod.ZObject [];
     func := fun _ =>
       bind (axios_get (API_BASE_URL ++ "/completed"))
            (fun response_data => ret (JSON_stringify response_data)) |}.

Definition moveItems : Tool :=
  {| tool_name := "move_items";
     description := "Move items between pending and completed states";
     schema := moveItemsSchema;
     func := fun input =>
       let itemIds := JS.get "itemIds" input in
       let targetType := JS.get "targetType" input in
       let sourceType : string :=
         if strict_eq_str targetType "completed" then "pending"
         else "completed" in
       bind (axios_patch (API_BASE_URL ++ "/" ++ sourceType)
               (Some (object_literal [ ("itemIds", itemIds);
                                       ("targetType", targetType) ])))
            (fun response_data => ret (JSON_stringify response_data)) |}.

Definition clearItems : Tool :=
  {| tool_name := "clear_items";
     description :=
       "Clear all items of a specific type (pending or completed)";
     schema := Zod.ZObject [ ("type", Zod.ZEnum [ "pending"; "completed" ]) ];
     func := fun input =>
       let type := JS.get "type" input in
       bind (axios_delete (API_BASE_URL ++ "/" ++ JS.to_string type))
            (fun response_data => ret (JSON_stringify response_data)) |}.

Definition TOOLS : list Tool :=
  [ addPendingItem; addCompletedItem; getPendingItems; getCompletedItems;
    moveItems; clearItems ].

(** Modelled from the spec: the [tool(...)] wrapper of the LangChain
    dependency, which is not under src/.  Section 4.1: an operation
    validates its arguments against its declared schema before invocation,
    and a validation failure short-circuits the remote call. *)
Definition tool_invoke (t : Tool) (args : json) : Eff string :=
  match Zod.safeParse (schema t) args with
  | inl issues => throw (ToolInputParsingException issues)
  | inr input => func t input
  end.

(** *** The tool executor *)

(** Modelled from the spec: an Action Result that reports a failure
    (section 7), tagged with the correlation identifier of its request. *)
Definition error_result (call : ToolCall) (e : exn) : Message :=
  ToolMessage ("Error: " ++ exn_message e ++ nl ++ " Please fix your mistakes.")
              (call_name call) (call_id call).

(** Modelled from the spec: one request of the batch, as the prebuilt
    [ToolNode] of the LangGraph dependency (not under src/) handles it.
    Section 4.2: look the operation up by name; if absent, produce an
    "unknown operation" result without contacting any remote system;
    otherwise validate and invoke; a failure is captured and turned into
    the request's own result, tagged with its correlation identifier. *)
Definition run_tool_call (tools : list Tool) (call : ToolCall) : Eff Message :=
  match List.find (fun t => String.eqb (tool_name t) (call_name call)) tools with
  | None => ret (error_result call (ToolNotFound (call_name call)))
  | Some t =>
      try_catch
        (bind (tool_invoke t (call_args call))
              (fun output =>
                 ret (ToolMessage output (tool_name t) (call_id call))))
        (fun e => ret (error_result call e))
  end.

(** The Action Requests of the latest turn: the tool calls of the last
    message, none when there is no such message or no such field. *)
Definition latest_requests (state : State) : list ToolCall :=
  match JS.index (messages state)
          (Z.of_nat (List.length (messages state)) - 1) with
  | Some m =>
      match message_tool_calls m with
      | Some calls => calls
      | None => []
      end
  | None => []
  end.

(** Modelled from the spec: the node [new ToolNode(TOOLS)].  Section 4.2:
    the input is the ordered list of Action Requests of the latest
    orchestrator turn (possibly empty), handled in list order; the update
    holds one result message per request. *)
Definition ToolNode (tools : list Tool) (state : State) : Eff State :=
  bind (for_each (run_tool_call tools) (latest_requests state))
       (fun outputs => ret {| messages := outputs |}).

(** *** The graph (graph.ts) *)

Definition chat_invoke (model_name : string) (input : list Message)
  : Eff Message :=
  fun w =>
    let (e', outcome) := chat (ext w) model_name input in
    let w' := {| ext := e';
                 http_log := http_log w;
                 model_log := model_log w ++ [input] |} in
    match outcome with
    | inr response => (w', inr (AIMessage (content response) (tool_calls response)))
    | inl reason => (w', inl (ModelError reason))
    end.

(** [new Date().toISOString()]. *)
Definition Date_now_toISOString : Eff string :=
  fun w => (w, inr (toISOString_now (ext w))).

Definition system_content (configuration : Configuration) (now : string)
  : string :=
  JS.replace (systemPromptTemplate configuration) "{system_time}" now
  ++ AGENT_INSTRUCTIONS.

Definition callModel (state : State) (configuration : Configuration)
  : Eff State :=
  bind Date_now_toISOString (fun now =>
  bind (chat_invoke (model configuration)
          (SystemMessage (system_content configuration now)
           :: messages state))
       (fun response => ret {| messages := [response] |})).

Definition routeModelOutput (state : State) : string :=
  let messages := messages state in
  let lastMessage :=
    JS.index messages (Z.of_nat (List.length messages) - 1) in
  let tool_calls_length : value :=
    match lastMessage with
    | Some m =>
        match message_tool_calls m with
        | Some calls => Some (JNum (Z.of_nat (List.length calls)))
        | None => undefined
        end
    | None => undefined
    end in
  if truthy (JS.or tool_calls_length (JS.gt 0 0)) then "tools"
  else "__end__".

(** The condition of [routeModelOutput] read as
    [(tool_calls?.length || 0) > 0]. *)
Definition routeModelOutput_grouped (state : State) : string :=
  let messages := messages state in
  let lastMessage :=
    JS.index messages (Z.of_nat (List.length messages) - 1) in
  let tool_calls_length : value :=
    match lastMessage with
    | Some m =>
        match message_tool_calls m with
        | Some calls => Some (JNum (Z.of_nat (List.length calls)))
        | None => undefined
        end
    | None => undefined
    end in
  match JS.or tool_calls_length (Some (JNum 0)) with
  | Some (JNum n) => if (n >? 0)%Z then "tools" else "__end__"
  | _ => "__end__"
  end.

(** Modelled from the spec: the reducer of [MessagesAnnotation] (LangGraph
    dependency, not under src/).  Section 2: the outputs of a node are
    appended to the message history before the next iteration. *)
Definition add_messages (state update : State) : State :=
  {| messages := messages state ++ messages update |}.

(** One step of the compiled graph: run the node, merge its update, follow
    the edge.  Edges: [__start__ -> callModel], the conditional edge
    [callModel -> routeModelOutput(state)], [tools -> callModel]. *)
Definition step (configuration : Configuration) (node : string) (state : State)
  : Eff (string * State) :=
  if String.eqb node "__start__" then ret ("callModel", state)
  else if String.eqb node "callModel" then
    bind (callModel state configuration) (fun update =>
      let state' := add_messages state update in
      ret (routeModelOutput state', state'))
  else if String.eqb node "tools" then
    bind (ToolNode TOOLS state) (fun update =>
      ret ("callModel", add_messages state update))
  else ret (node, state).

(** [graph.invoke]: steps until [__end__], at most [fuel] of them. *)
Fixpoint run (configuration : Configuration) (fuel : nat) (node : string)
  (state : State) : Eff (string * State) :=
  match fuel with
  | O => ret (node, state)
  | S fuel' =>
      if String.eqb node "__end__" then ret (node, state)
      else bind (step configuration node state) (fun next =>
             run configuration fuel' (fst next) (snd next))
  end.

End Agent.

(** ** Vocabulary of the specification *)

(** The two statuses of a workflow item. *)
Inductive Status : Type := pending | completed.

Definition status_name (t : Status) : string :=
  match t with
  | pending => "pending"
  | completed => "completed"
  end.

Definition opposite (t : Status) : Status :=
  match t with
  | pending => completed
  | completed => pending
  end.

(** The Action Requests a message carries. *)
Definition action_requests (m : Message) : list ToolCall :=
  match m with
  | AIMessage _ (Some calls) => calls
  | _ => []
  end.

(** An Action Result for the request [call]: a tool message tagged with
    the correlation identifier of [call]. *)
Definition answers (call : ToolCall) (m : Message) : Prop :=
  exists text name, m = ToolMessage text name (call_id call).

(** The arguments [{itemIds, targetType}] of [move_items]. *)
Definition move_args (ids : list string) (t : Status) : json :=
  JObj [ ("itemIds", JArr (List.map JStr ids));
         ("targetType", JStr (status_name t)) ].

(** ** A scripted outside world

    A store that refuses every DELETE and accepts the rest, a model that
    first asks for three actions and then answers in plain text, a clock
    that moves with every interaction. *)

Definition scripted_calls : list ToolCall :=
  [ {| call_name := "get_pending_items"; call_args := JObj [];
       call_id := "call_1" |};
    {| call_name := "clear_items";
       call_args := JObj [ ("type", JStr "pending") ];
       call_id := "call_2" |};
    {| call_name := "move_items";
       call_args := move_args [ "a"; "b" ] completed;
       call_id := "call_3" |} ].

Definition scripted : Externals :=
  {| Ext := nat;
     remote := fun e req =>
       (S e,
        match method req with
        | DELETE => HttpFail "Request failed with status code 500"
        | _ => HttpOk (JObj [ ("ok", JBool true) ])
        end);
     chat := fun e _ _ =>
       (S e,
        match e with
        | O => inr {| content := EmptyString;
                      tool_calls := Some scripted_calls |}
        | _ => inr {| content := "Done."; tool_calls := None |}
        end);
     toISOString_now := fun e =>
       ("2024-05-01T10:00:0" ++ number_to_string (Z.of_nat (Nat.modulo e 10))
        ++ ".000Z")%string;
     JSON_stringify := to_string_json |}.

Definition scripted_world (e : nat) : @World scripted :=
  @Build_World scripted e [] [].

Definition scripted_configuration : Configuration :=
  {| systemPromptTemplate := "System time: {system_time}";
     model := "demo-model" |}.

Definition user_asks : State :=
  {| messages := [ HumanMessage "tidy up my tasks" ] |}.

(** ** Vocabulary for the remaining tools and for whole runs *)

(** The address of the collection of one status. *)
Definition endpoint (t : Status) : string :=
  API_BASE_URL ++ "/" ++ status_name t.

(** The tool that creates an item in the status [t], and the one that
    lists the items of the status [t]. *)
Definition add_tool {X : Externals} (t : Status) : Tool :=
  match t with
  | pending => addPendingItem
  | completed => addCompletedItem
  end.

Definition get_tool {X : Externals} (t : Status) : Tool :=
  match t with
  | pending => getPendingItems
  | completed => getCompletedItems
  end.

(** [pat] is a substring of [s]. *)
Definition contains (pat s : string) : Prop :=
  exists x y, s = (x ++ pat ++ y)%string.

Definition is_ai (m : Message) : bool :=
  match m with
  | AIMessage _ _ => true
  | _ => false
  end.

Definition is_tool_result (m : Message) : bool :=
  match m with
  | ToolMessage _ _ _ => true
  | _ => false
  end.

(** The messages a finished session adds: rounds of a response that
    carries requests followed by one result per request, closed by a
    response that carries none. *)
Inductive turns : list Message -> Prop :=
| turns_answer (text : string) (calls : option (list ToolCall)) :
    action_requests (AIMessage text calls) = [] ->
    turns [ AIMessage text calls ]
| turns_round (text : string) (calls : list ToolCall)
              (results rest : list Message) :
    calls <> [] ->
    Forall2 answers calls results ->
    turns rest ->
    turns (AIMessage text (Some calls) :: results ++ rest).

(** An outside world whose chat model is out of service. *)
Definition model_down : Externals :=
  {| Ext := nat;
     remote := fun e _ => (S e, HttpOk JNull);
     chat := fun e _ _ => (S e, inl "503 Service Unavailable");
     toISOString_now := fun _ => "2024-05-01T10:00:00.000Z";
     JSON_stringify := to_string_json |}.

(** * Properties *)

(** ** Concrete behaviour of the JavaScript primitives *)

Example replace_first_only :
  JS.replace "at {t} and {t}" "{t}" "noon" = "at noon and {t}".
Proof. reflexivity. Qed.

Example replace_dollar_patterns :
  JS.replace "a-b-c" "b" "[$&$$$'$`]" = "a-[b$-ca-]-c".
Proof. reflexivity. Qed.

Example number_to_string_samples :
  (number_to_string 0, number_to_string 1907, number_to_string (-42))
  = ("0", "1907", "-42").
Proof. reflexivity. Qed.

Example instructions_head :
  JS.starts_with (nl ++ nl ++ "You are a workflow management assistant")
    AGENT_INSTRUCTIONS = true.
Proof. vm_compute. reflexivity. Qed.

Example safeParse_missing_description :
  Zod.safeParse (Zod.ZObject [ ("title", Zod.ZString);
                               ("description", Zod.ZString) ])
    (JObj [ ("title", JStr "Write report") ])
  = inl [ {| Zod.path := [ Zod.Key "description" ];
             Zod.code := Zod.invalid_type "string" "undefined" |} ].
Proof. reflexivity. Qed.

Example missing_description_text :
  exn_message
    (ToolInputParsingException
       [ {| Zod.path := [ Zod.Key "description" ];
            Zod.code := Zod.invalid_type "string" "undefined" |} ])
  = "Received tool input did not match expected schema: description: Required".
Proof. reflexivity. Qed.

Example safeParse_wrong_enum :
  Zod.safeParse (Zod.ZObject [ ("type", Zod.ZEnum [ "pending"; "completed" ]) ])
    (JObj [ ("type", JStr "archived") ])
  = inl [ {| Zod.path := [ Zod.Key "type" ];
             Zod.code := Zod.invalid_enum_value [ "pending"; "completed" ]
                           "archived" |} ].
Proof. reflexivity. Qed.

Example safeParse_drops_undeclared_keys :
  Zod.safeParse (Zod.ZObject [ ("type", Zod.ZEnum [ "pending"; "completed" ]) ])
    (JObj [ ("force", JBool true); ("type", JStr "pending") ])
  = inr (JObj [ ("type", JStr "pending") ]).
Proof. reflexivity. Qed.

Example route_samples :
  (routeModelOutput {| messages := [] |},
   routeModelOutput {| messages := [ HumanMessage "hi" ] |},
   routeModelOutput {| messages := [ AIMessage "ok" (Some []) ] |},
   routeModelOutput {| messages := [ HumanMessage "hi";
                                     AIMessage EmptyString
                                       (Some scripted_calls) ] |})
  = ("__end__", "__end__", "__end__", "tools").
Proof. reflexivity. Qed.

(** The scripted session: one round of three actions, then the answer.
    The clock is read anew at each of the two model invocations. *)
Example scripted_session :
  let outcome := @run scripted scripted_configuration 10 "__start__"
                   user_asks (scripted_world 0) in
  snd outcome
  = inr ("__end__",
         {| messages :=
              [ HumanMessage "tidy up my tasks";
                AIMessage EmptyString (Some scripted_calls);
                ToolMessage "[object Object]" "get_pending_items" "call_1";
                ToolMessage
                  ("Error: Request failed with status code 500" ++ nl
                   ++ " Please fix your mistakes.")
                  "clear_items" "call_2";
                ToolMessage "[object Object]" "move_items" "call_3";
                AIMessage "Done." None ] |}) /\
  List.map (@List.hd_error Message) (model_log (fst outcome))
  = [ Some (SystemMessage
              (@system_content scripted_configuration
                 "2024-05-01T10:00:00.000Z"));
      Some (SystemMessage
              (@system_content scripted_configuration
                 "2024-05-01T10:00:04.000Z")) ] /\
  List.map method (http_log (fst outcome)) = [ GET; DELETE; PATCH ].
Proof. vm_compute. repeat split. Qed.

(** ** The last message of a conversation *)

Lemma index_last {A : Type} (pre : list A) (m : A) :
  JS.index (pre ++ [m]) (Z.of_nat (List.length (pre ++ [m])) - 1) = Some m.
Proof.
  unfold JS.index. rewrite List.length_app. cbn [List.length].
  replace (Z.of_nat (List.length pre + 1) - 1)%Z
    with (Z.of_nat (List.length pre)) by lia.
  destruct (Z.ltb_spec (Z.of_nat (List.length pre)) 0) as [Hneg | _];
    [lia |].
  rewrite Nat2Z.id, nth_error_app2 by lia.
  now rewrite Nat.sub_diag.
Qed.

Lemma empty_or_last {A : Type} (l : list A) :
  l = [] \/ exists pre m, l = pre ++ [m].
Proof.
  induction l as [| x l _] using rev_ind; [now left | right].
  now exists l, x.
Qed.

Lemma latest_requests_last (pre : list Message) (m : Message) :
  latest_requests {| messages := pre ++ [m] |} = action_requests m.
Proof.
  unfold latest_requests. cbn [messages]. rewrite index_last.
  destruct m as [t | t | t [calls |] | t n i]; reflexivity.
Qed.

Lemma latest_requests_empty : latest_requests {| messages := [] |} = [].
Proof. reflexivity. Qed.

(** ** The router *)

Lemma truthy_length {A : Type} (l : list A) :
  truthy (Some (JNum (Z.of_nat (List.length l)))) =
  match l with [] => false | _ :: _ => true end.
Proof.
  destruct l as [| x l]; [reflexivity |].
  cbn [truthy List.length].
  destruct (Z.eqb_spec (Z.of_nat (S (List.length l))) 0); [lia | reflexivity].
Qed.

Lemma routeModelOutput_requests (state : State) :
  routeModelOutput state =
  match latest_requests state with
  | [] => "__end__"
  | _ :: _ => "tools"
  end.
Proof.
  unfold routeModelOutput, latest_requests.
  destruct (JS.index (messages state) _) as [m |]; [| reflexivity].
  destruct (message_tool_calls m) as [calls |]; [| reflexivity].
  unfold JS.or. rewrite truthy_length.
  destruct calls; [reflexivity |].
  now rewrite truthy_length.
Qed.

Lemma routeModelOutput_grouped_requests (state : State) :
  routeModelOutput_grouped state =
  match latest_requests state with
  | [] => "__end__"
  | _ :: _ => "tools"
  end.
Proof.
  unfold routeModelOutput_grouped, latest_requests.
  destruct (JS.index (messages state) _) as [m |]; [| reflexivity].
  destruct (message_tool_calls m) as [calls |]; [| reflexivity].
  unfold JS.or. rewrite truthy_length.
  destruct calls as [| c calls]; [reflexivity |].
  cbn [List.length].
  destruct (Z.gtb_spec (Z.of_nat (S (List.length calls))) 0);
    [reflexivity | lia].
Qed.

(** C10.  [routeModelOutput] is total and its result is one of "tools" and
    "__end__"; on an empty conversation and on a last message without a
    [tool_calls] field it is "__end__"; and the condition as JavaScript
    parses it, [length || (0 > 0)], decides exactly as the grouping
    [(length || 0) > 0] would. *)
Theorem routeModelOutput_total (state : State) :
  (routeModelOutput state = "tools" \/ routeModelOutput state = "__end__") /\
  routeModelOutput {| messages := [] |} = "__end__" /\
  (forall pre m, message_tool_calls m = None ->
     routeModelOutput {| messages := pre ++ [m] |} = "__end__") /\
  routeModelOutput state = routeModelOutput_grouped state.
Proof.
  repeat split.
  - rewrite routeModelOutput_requests.
    destruct (latest_requests state); [now right | now left].
  - intros pre m Hnone. rewrite routeModelOutput_requests.
    rewrite latest_requests_last.
    destruct m as [t | t | t [calls |] | t n i]; try reflexivity.
    discriminate Hnone.
  - now rewrite routeModelOutput_requests, routeModelOutput_grouped_requests.
Qed.

Lemma routeModelOutput_total_witness :
  message_tool_calls (ToolMessage "[]" "get_pending_items" "call_1") = None /\
  routeModelOutput
    {| messages := [ HumanMessage "hello" ]
                   ++ [ ToolMessage "[]" "get_pending_items" "call_1" ] |}
  = "__end__".
Proof.
  split; [reflexivity |].
  apply (proj1 (proj2 (proj2
           (routeModelOutput_total {| messages := [] |})))).
  reflexivity.
Defined.

Section Properties.

Context {X : Externals}.

(** ** Laws of the effect monad *)

Lemma bind_returns {A B : Type} (c : Eff A) (k : A -> Eff B) w w' a :
  c w = (w', inr a) -> bind c k w = k a w'.
Proof. intros H. unfold bind. now rewrite H. Qed.

Lemma bind_inversion {A B : Type} (c : Eff A) (k : A -> Eff B) w w' b :
  bind c k w = (w', inr b) ->
  exists w1 a, c w = (w1, inr a) /\ k a w1 = (w', inr b).
Proof.
  unfold bind. destruct (c w) as [w1 [e | a]]; intros H; [discriminate |].
  now exists w1, a.
Qed.

(** A batch is handled member by member, each one in the world its
    predecessors left. *)
Lemma for_each_app {A B : Type} (f : A -> Eff B) (xs ys : list A) w w1 w2 r1 r2 :
  for_each f xs w = (w1, inr r1) ->
  for_each f ys w1 = (w2, inr r2) ->
  for_each f (xs ++ ys) w = (w2, inr (r1 ++ r2)).
Proof.
  revert w r1. induction xs as [| x xs IH]; intros w r1 Hxs Hys.
  - cbn in Hxs. injection Hxs as <- <-. exact Hys.
  - cbn [for_each app] in *.
    apply bind_inversion in Hxs as (wa & y & Hy & Hrest).
    apply bind_inversion in Hrest as (wb & ys' & Hrest & Hret).
    injection Hret as <- <-.
    rewrite (bind_returns _ _ _ _ _ Hy).
    now rewrite (bind_returns _ _ _ _ _ (IH _ _ Hrest Hys)).
Qed.

Lemma for_each_total {A B : Type} (f : A -> Eff B) (P : A -> B -> Prop) :
  (forall x w, exists w' y, f x w = (w', inr y) /\ P x y) ->
  forall xs w, exists w' ys,
    for_each f xs w = (w', inr ys) /\ Forall2 P xs ys.
Proof.
  intros Hf. induction xs as [| x xs IH]; intros w.
  - exists w, []. split; [reflexivity | constructor].
  - destruct (Hf x w) as (w1 & y & Hy & HP).
    destruct (IH w1) as (w2 & ys & Hys & HPs).
    exists w2, (y :: ys). split; [| now constructor].
    cbn [for_each]. rewrite (bind_returns _ _ _ _ _ Hy).
    now rewrite (bind_returns _ _ _ _ _ Hys).
Qed.

(** Only [chat_invoke] writes the model log and only [axios_request] the
    request log. *)
Lemma axios_request_logs (req : HttpRequest) w :
  http_log (fst (axios_request req w)) = http_log w ++ [req] /\
  model_log (fst (axios_request req w)) = model_log w.
Proof.
  unfold axios_request. destruct (remote (ext w) req) as [e' [data | reason]];
    now split.
Qed.

Lemma axios_request_outcome (req : HttpRequest) w :
  axios_request req w =
  ({| ext := fst (remote (ext w) req);
      http_log := http_log w ++ [req];
      model_log := model_log w |},
   match snd (remote (ext w) req) with
   | HttpOk data => inr data
   | HttpFail reason => inl (AxiosError reason)
   end).
Proof.
  unfold axios_request. now destruct (remote (ext w) req) as [e' [d | r]].
Qed.

(** ** The tool executor never throws *)

Lemma run_tool_call_total (tools : list Tool) (call : ToolCall) w :
  exists w' r, run_tool_call tools call w = (w', inr r) /\ answers call r.
Proof.
  unfold run_tool_call, answers.
  destruct (List.find _ tools) as [t |].
  - unfold try_catch, bind.
    destruct (tool_invoke t (call_args call) w) as [w' [e | output]].
    + exists w', (error_result call e). split; [reflexivity |].
      unfold error_result. eauto.
    + exists w', (ToolMessage output (tool_name t) (call_id call)).
      split; [reflexivity | eauto].
  - exists w, (error_result call (ToolNotFound (call_name call))).
    split; [reflexivity |]. unfold error_result. eauto.
Qed.

Lemma ToolNode_total (tools : list Tool) (state : State) w :
  exists w' results,
    ToolNode tools state w = (w', inr {| messages := results |}) /\
    Forall2 answers (latest_requests state) results.
Proof.
  destruct (for_each_total (run_tool_call tools) answers
              (run_tool_call_total tools) (latest_requests state) w)
    as (w' & results & Hrun & Hall).
  exists w', results. split; [| exact Hall].
  unfold ToolNode. now rewrite (bind_returns _ _ _ _ _ Hrun).
Qed.

(** The tools touch the store only: the model is not invoked. *)
Lemma tool_func_model_log (t : Tool) (input : json) w :
  In t TOOLS -> model_log (fst (func t input w)) = model_log w.
Proof.
  intros Hin. cbn in Hin.
  repeat (destruct Hin as [<- | Hin]); try contradiction;
    cbn [func addPendingItem addCompletedItem getPendingItems
         getCompletedItems moveItems clearItems];
    unfold axios_post, axios_get, axios_patch, axios_delete, bind;
    rewrite axios_request_outcome;
    match goal with
    | |- context [snd (remote ?e ?r)] => destruct (snd (remote e r))
    end; reflexivity.
Qed.

Lemma tool_invoke_model_log (t : Tool) (args : json) w :
  In t TOOLS -> model_log (fst (tool_invoke t args w)) = model_log w.
Proof.
  intros Hin. unfold tool_invoke.
  destruct (Zod.safeParse (schema t) args) as [issues | input];
    [reflexivity | now apply tool_func_model_log].
Qed.

Lemma run_tool_call_model_log (call : ToolCall) w :
  model_log (fst (run_tool_call TOOLS call w)) = model_log w.
Proof.
  unfold run_tool_call.
  destruct (List.find _ TOOLS) as [t |] eqn:Hfind; [| reflexivity].
  apply List.find_some in Hfind as [Hin _].
  pose proof (tool_invoke_model_log t (call_args call) w Hin) as Hlog.
  unfold try_catch, bind.
  destruct (tool_invoke t (call_args call) w) as [w' [e | output]];
    exact Hlog.
Qed.

Lemma for_each_run_tool_call_model_log (calls : list ToolCall) w :
  model_log (fst (for_each (run_tool_call TOOLS) calls w)) = model_log w.
Proof.
  revert w. induction calls as [| c calls IH]; intros w; [reflexivity |].
  cbn [for_each]. unfold bind at 1.
  pose proof (run_tool_call_model_log c w) as Hc.
  destruct (run_tool_call TOOLS c w) as [w1 [e | r]]; [exact Hc |].
  cbn [fst] in Hc. rewrite <- Hc. specialize (IH w1).
  unfold bind. destruct (for_each (run_tool_call TOOLS) calls w1)
    as [w2 [e | rs]]; exact IH.
Qed.

(** ** The graph, step by step *)

Lemma step_callModel (configuration : Configuration) (state : State) :
  step configuration "callModel" state =
  bind (callModel state configuration) (fun update =>
    ret (routeModelOutput (add_messages state update),
         add_messages state update)).
Proof. reflexivity. Qed.

Lemma step_tools (configuration : Configuration) (state : State) :
  step configuration "tools" state =
  bind (ToolNode TOOLS state) (fun update =>
    ret ("callModel", add_messages state update)).
Proof. reflexivity. Qed.

Lemma callModel_http_log (state : State) (configuration : Configuration) w :
  http_log (fst (callModel state configuration w)) = http_log w.
Proof.
  unfold callModel, bind, Date_now_toISOString, chat_invoke.
  destruct (chat _ _ _) as [e' [reason | response]]; reflexivity.
Qed.

(** C1.  When the orchestrator's response carries the requests [calls]
    (at least one), the two steps that follow [callModel] lead back to
    [callModel] with the response and then exactly one Action Result per
    request appended, in the order of the requests and each tagged with
    the correlation identifier of its request; the model is not invoked
    in between. *)
Theorem every_request_answered
  (configuration : Configuration) (state : State) w w1 text calls :
  callModel state configuration w
  = (w1, inr {| messages := [ AIMessage text (Some calls) ] |}) ->
  calls <> [] ->
  exists w2 results,
    run configuration 2 "callModel" state w
    = (w2, inr ("callModel",
                {| messages := messages state
                               ++ [ AIMessage text (Some calls) ]
                               ++ results |})) /\
    List.length results = List.length calls /\
    Forall2 answers calls results /\
    model_log w2 = model_log w1.
Proof.
  intros Hmodel Hsome.
  set (state1 := {| messages := messages state
                                ++ [ AIMessage text (Some calls) ] |}).
  assert (Hreq : latest_requests state1 = calls)
    by (unfold state1; now rewrite latest_requests_last).
  destruct (ToolNode_total TOOLS state1 w1) as (w2 & results & Htools & Hall).
  rewrite Hreq in Hall.
  exists w2, results. repeat split.
  - cbn [run]. change (String.eqb "callModel" "__end__") with false.
    cbv iota. rewrite step_callModel.
    rewrite (bind_returns _ _ _ _ _ (bind_returns _ _ _ _ _ Hmodel)).
    unfold ret at 1. cbn [fst snd].
    change (add_messages state _) with state1.
    rewrite routeModelOutput_requests, Hreq.
    destruct calls as [| c calls']; [contradiction |].
    change (String.eqb "tools" "__end__") with false. cbv iota.
    rewrite step_tools.
    rewrite (bind_returns _ _ _ _ _ (bind_returns _ _ _ _ _ Htools)).
    unfold ret. cbn [fst snd]. unfold add_messages, state1. cbn [messages].
    now rewrite <- List.app_assoc.
  - symmetry. exact (Forall2_length Hall).
  - exact Hall.
  - unfold ToolNode in Htools.
    apply bind_inversion in Htools as (wa & outs & Hrun & Hret).
    injection Hret as <- _.
    pose proof (for_each_run_tool_call_model_log (latest_requests state1) w1)
      as Hlog.
    now rewrite Hrun in Hlog.
Qed.

(** C2.  The router answers "__end__" exactly when the most recent message
    carries no Action Request (or there is no message), and "tools" exactly
    when it carries at least one; and when the model's response carries
    none, the run stops with that response appended and without any
    request to the store. *)
Theorem route_ends_without_requests :
  (forall state,
     routeModelOutput state = "__end__" <->
     (messages state = [] \/
      exists pre m, messages state = pre ++ [m] /\ action_requests m = [])) /\
  (forall state,
     routeModelOutput state = "tools" <->
     (exists pre m, messages state = pre ++ [m] /\ action_requests m <> [])) /\
  (forall configuration state w w1 text calls fuel,
     callModel state configuration w
     = (w1, inr {| messages := [ AIMessage text calls ] |}) ->
     action_requests (AIMessage text calls) = [] ->
     run configuration (S fuel) "callModel" state w
     = (w1, inr ("__end__",
                 {| messages := messages state ++ [ AIMessage text calls ] |}))
     /\ http_log w1 = http_log w).
Proof.
  split; [| split].
  - intros [msgs]. rewrite routeModelOutput_requests. cbn [messages].
    destruct (empty_or_last msgs) as [-> | (pre & m & ->)].
    + rewrite latest_requests_empty. split; [now left | reflexivity].
    + rewrite latest_requests_last. split.
      * intros H. right. exists pre, m. split; [reflexivity |].
        destruct (action_requests m); [reflexivity | discriminate].
      * intros [Hnil | (pre' & m' & Heq & Hnone)].
        -- now destruct pre.
        -- apply List.app_inj_tail in Heq as [_ ->]. now rewrite Hnone.
  - intros [msgs]. rewrite routeModelOutput_requests. cbn [messages].
    destruct (empty_or_last msgs) as [-> | (pre & m & ->)].
    + rewrite latest_requests_empty. split; [discriminate |].
      intros (pre & m & Heq & _). now destruct pre.
    + rewrite latest_requests_last. split.
      * intros H. exists pre, m. split; [reflexivity |].
        destruct (action_requests m); [discriminate | discriminate].
      * intros (pre' & m' & Heq & Hsome).
        apply List.app_inj_tail in Heq as [_ ->].
        destruct (action_requests m'); [contradiction | reflexivity].
  - intros configuration state w w1 text calls fuel Hmodel Hnone. split.
    + cbn [run]. change (String.eqb "callModel" "__end__") with false.
      cbv iota. rewrite step_callModel.
      rewrite (bind_returns _ _ _ _ _ (bind_returns _ _ _ _ _ Hmodel)).
      cbn [fst snd]. unfold add_messages. cbn [messages].
      rewrite routeModelOutput_requests, latest_requests_last, Hnone.
      destruct fuel; reflexivity.
    + pose proof (callModel_http_log state configuration w) as Hlog.
      now rewrite Hmodel in Hlog.
Qed.

(** ** Validation against the tool schemas *)

Lemma parse_elems_strings (ids : list string) p i :
  Zod.parse_elems (Zod.parse Zod.ZString) p i (List.map JStr ids)
  = inr (List.map JStr ids).
Proof.
  revert i. induction ids as [| x ids IH]; intros i; [reflexivity |].
  cbn [List.map Zod.parse_elems Zod.parse]. now rewrite IH.
Qed.

Lemma parse_elems_strings_inv (xs ys : list json) p i :
  Zod.parse_elems (Zod.parse Zod.ZString) p i xs = inr ys ->
  exists ids, xs = List.map JStr ids.
Proof.
  revert i ys. induction xs as [| x xs IH]; intros i ys H.
  - now exists [].
  - cbn [Zod.parse_elems] in H.
    destruct (Zod.parse_elems (Zod.parse Zod.ZString) p (S i) xs)
      as [e | ys'] eqn:Hrest.
    + destruct (Zod.parse Zod.ZString (p ++ [Zod.Index i]) (Some x));
        discriminate H.
    + destruct (IH _ _ Hrest) as [ids ->].
      destruct x as [| b | z | s | l | o]; try discriminate H.
      now exists (s :: ids).
Qed.

Lemma safeParse_move_args (fields : list (string * json)) ids t :
  assoc "itemIds" fields = Some (JArr (List.map JStr ids)) ->
  assoc "targetType" fields = Some (JStr (status_name t)) ->
  Zod.safeParse moveItemsSchema (JObj fields) = inr (move_args ids t).
Proof.
  intros Hids Htarget. unfold Zod.safeParse, moveItemsSchema.
  cbn [Zod.parse Zod.parse_shape]. rewrite Hids, Htarget.
  cbn [Zod.parse]. rewrite parse_elems_strings.
  change (Zod.parse_elems _ _ _ _) with
    (Zod.parse_elems (Zod.parse Zod.ZString) ([] ++ [Zod.Key "itemIds"]) 0
       (List.map JStr ids)).
  now destruct t.
Qed.

Lemma strict_eq_completed (t : Status) :
  (if strict_eq_str (Some (JStr (status_name t))) "completed"
   then "pending" else "completed")
  = status_name (opposite t).
Proof. now destruct t. Qed.

Lemma find_move_items :
  List.find (fun t => String.eqb (tool_name t) "move_items") TOOLS
  = Some moveItems.
Proof. reflexivity. Qed.

Lemma find_clear_items :
  List.find (fun t => String.eqb (tool_name t) "clear_items") TOOLS
  = Some clearItems.
Proof. reflexivity. Qed.

Lemma find_add_pending_item :
  List.find (fun t => String.eqb (tool_name t) "add_pending_item") TOOLS
  = Some addPendingItem.
Proof. reflexivity. Qed.

(** What the executor makes of a call whose tool is [t]. *)
Lemma run_tool_call_found (call : ToolCall) (t : Tool) w :
  List.find (fun t => String.eqb (tool_name t) (call_name call)) TOOLS
  = Some t ->
  run_tool_call TOOLS call w =
  match tool_invoke t (call_args call) w with
  | (w', inr output) =>
      (w', inr (ToolMessage output (tool_name t) (call_id call)))
  | (w', inl e) => (w', inr (error_result call e))
  end.
Proof.
  intros Hfind. unfold run_tool_call. rewrite Hfind.
  unfold try_catch, bind, ret.
  now destruct (tool_invoke t (call_args call) w) as [w' [e | output]].
Qed.

Lemma tool_invoke_moveItems (fields : list (string * json)) ids t w :
  assoc "itemIds" fields = Some (JArr (List.map JStr ids)) ->
  assoc "targetType" fields = Some (JStr (status_name t)) ->
  tool_invoke moveItems (JObj fields) w =
  bind (axios_patch (API_BASE_URL ++ "/" ++ status_name (opposite t))
          (Some (move_args ids t)))
       (fun response_data => ret (JSON_stringify response_data)) w.
Proof.
  intros Hids Htarget. unfold tool_invoke.
  change (schema moveItems) with moveItemsSchema.
  rewrite (safeParse_move_args fields ids t Hids Htarget).
  cbn [func moveItems]. unfold move_args at 1 2.
  cbn [JS.get assoc String.eqb Ascii.eqb Bool.eqb].
  now rewrite strict_eq_completed.
Qed.

Lemma run_move_items_log (fields : list (string * json)) ids t id w :
  assoc "itemIds" fields = Some (JArr (List.map JStr ids)) ->
  assoc "targetType" fields = Some (JStr (status_name t)) ->
  http_log (fst (run_tool_call TOOLS
                   {| call_name := "move_items"; call_args := JObj fields;
                      call_id := id |} w))
  = http_log w
    ++ [ {| method := PATCH;
            url := API_BASE_URL ++ "/" ++ status_name (opposite t);
            body := Some (move_args ids t) |} ].
Proof.
  intros Hids Htarget.
  rewrite run_tool_call_found with (t := moveItems) by exact find_move_items.
  cbn [call_args]. rewrite (tool_invoke_moveItems fields ids t w Hids Htarget).
  unfold bind, axios_patch. rewrite axios_request_outcome.
  now destruct (snd (remote _ _)).
Qed.

Lemma func_moveItems (fields : list (string * json)) ids t w :
  assoc "itemIds" fields = Some (JArr (List.map JStr ids)) ->
  assoc "targetType" fields = Some (JStr (status_name t)) ->
  func moveItems (JObj fields) w =
  bind (axios_request
          {| method := PATCH;
             url := API_BASE_URL ++ "/" ++ status_name (opposite t);
             body := Some (move_args ids t) |})
       (fun response_data => ret (JSON_stringify response_data)) w.
Proof.
  intros Hids Htarget. cbn [func moveItems JS.get].
  rewrite Hids, Htarget. cbn [object_literal].
  now rewrite strict_eq_completed.
Qed.

(** C3.  Whatever else the arguments hold, [move_items] called with
    [itemIds = ids] and [targetType = t] sends exactly one request: a
    PATCH to [/{opposite of t}] under the base URL, whose body is
    [{itemIds: ids, targetType: t}].  This holds of the function of the
    tool and of the call made through the executor. *)
Theorem move_items_patches_source
  (fields : list (string * json)) (ids : list string) (t : Status)
  (id : string) w :
  assoc "itemIds" fields = Some (JArr (List.map JStr ids)) ->
  assoc "targetType" fields = Some (JStr (status_name t)) ->
  let request :=
    {| method := PATCH;
       url := API_BASE_URL ++ "/" ++ status_name (opposite t);
       body := Some (JObj [ ("itemIds", JArr (List.map JStr ids));
                            ("targetType", JStr (status_name t)) ]) |} in
  func moveItems (JObj fields) w
  = bind (axios_request request)
         (fun response_data => ret (JSON_stringify response_data)) w /\
  http_log (fst (func moveItems (JObj fields) w)) = http_log w ++ [ request ] /\
  http_log (fst (run_tool_call TOOLS
                   {| call_name := "move_items"; call_args := JObj fields;
                      call_id := id |} w))
  = http_log w ++ [ request ].
Proof.
  intros Hids Htarget request.
  pose proof (func_moveItems fields ids t w Hids Htarget) as Hfunc.
  split; [exact Hfunc | split].
  - rewrite Hfunc. unfold bind. rewrite axios_request_outcome.
    now destruct (snd (remote _ _)).
  - exact (run_move_items_log fields ids t id w Hids Htarget).
Qed.

Lemma tool_invoke_clearItems (fields : list (string * json)) t w :
  assoc "type" fields = Some (JStr (status_name t)) ->
  tool_invoke clearItems (JObj fields) w =
  bind (axios_delete (API_BASE_URL ++ "/" ++ status_name t))
       (fun response_data => ret (JSON_stringify response_data)) w.
Proof.
  intros Htype. unfold tool_invoke, Zod.safeParse.
  cbn [schema clearItems Zod.parse Zod.parse_shape]. rewrite Htype.
  now destruct t.
Qed.

Lemma func_clearItems (fields : list (string * json)) t w :
  assoc "type" fields = Some (JStr (status_name t)) ->
  func clearItems (JObj fields) w =
  bind (axios_request
          {| method := DELETE;
             url := API_BASE_URL ++ "/" ++ status_name t;
             body := undefined |})
       (fun response_data => ret (JSON_stringify response_data)) w.
Proof.
  intros Htype. cbn [func clearItems JS.get]. now rewrite Htype.
Qed.

(** C7.  [clear_items] called with [type = t] sends exactly one request, a
    DELETE to [/{t}] under the base URL, both as the function of the tool
    and through the executor; that address is not the one of the other
    status; and when the store answers with [data], the result is
    [JSON.stringify(data)]. *)
Theorem clear_items_deletes_one_status
  (fields : list (string * json)) (t : Status) (id : string) w :
  assoc "type" fields = Some (JStr (status_name t)) ->
  let call := {| call_name := "clear_items"; call_args := JObj fields;
                 call_id := id |} in
  let request := {| method := DELETE;
                    url := API_BASE_URL ++ "/" ++ status_name t;
                    body := undefined |} in
  http_log (fst (func clearItems (JObj fields) w)) = http_log w ++ [ request ] /\
  http_log (fst (run_tool_call TOOLS call w)) = http_log w ++ [ request ] /\
  url request <> (API_BASE_URL ++ "/" ++ status_name (opposite t))%string /\
  (forall data,
     snd (remote (ext w) request) = HttpOk data ->
     snd (func clearItems (JObj fields) w) = inr (JSON_stringify data) /\
     snd (run_tool_call TOOLS call w)
     = inr (ToolMessage (JSON_stringify data) "clear_items" id)).
Proof.
  intros Htype call request.
  pose proof (func_clearItems fields t w Htype) as Hfunc. fold request in Hfunc.
  unfold bind in Hfunc. rewrite axios_request_outcome in Hfunc.
  assert (Hrun : run_tool_call TOOLS call w =
                 match snd (remote (ext w) request) with
                 | HttpOk data =>
                     ({| ext := fst (remote (ext w) request);
                         http_log := http_log w ++ [ request ];
                         model_log := model_log w |},
                      inr (ToolMessage (JSON_stringify data)
                             "clear_items" id))
                 | HttpFail reason =>
                     ({| ext := fst (remote (ext w) request);
                         http_log := http_log w ++ [ request ];
                         model_log := model_log w |},
                      inr (error_result call (AxiosError reason)))
                 end).
  { unfold call.
    rewrite run_tool_call_found with (t := clearItems)
      by exact find_clear_items.
    cbn [call_args]. rewrite (tool_invoke_clearItems fields t w Htype).
    unfold bind, axios_delete. rewrite axios_request_outcome.
    fold request. now destruct (snd (remote (ext w) request)). }
  split; [| split; [| split]].
  - rewrite Hfunc. now destruct (snd (remote (ext w) request)).
  - rewrite Hrun. now destruct (snd (remote (ext w) request)).
  - destruct t; vm_compute; discriminate.
  - intros data Hok. now rewrite Hfunc, Hrun, Hok.
Qed.

(** C6.  [add_pending_item] called without [description] (likewise without
    [title]) is rejected by validation: the result is an error message
    whose issues name the missing field as required, and the world is
    left as it was, so nothing is sent to the store and no value is
    supplied in place of the missing one. *)
Theorem add_pending_item_requires_fields
  (field : string) (fields : list (string * json)) (id : string) w :
  field = "title" \/ field = "description" ->
  assoc field fields = None ->
  let call := {| call_name := "add_pending_item"; call_args := JObj fields;
                 call_id := id |} in
  exists issues,
    run_tool_call TOOLS call w
    = (w, inr (error_result call (ToolInputParsingException issues))) /\
    In {| Zod.path := [ Zod.Key field ];
          Zod.code := Zod.invalid_type "string" "undefined" |} issues.
Proof.
  intros Hfield Hmissing call. unfold call.
  rewrite run_tool_call_found with (t := addPendingItem)
    by exact find_add_pending_item.
  cbn [call_args]. unfold tool_invoke, Zod.safeParse.
  cbn [schema addPendingItem itemSchema Zod.parse Zod.parse_shape app].
  destruct Hfield as [-> | ->]; rewrite Hmissing.
  - destruct (assoc "description" fields) as [[| b | z | s | l | o] |];
      cbn [Zod.both Zod.map_ok Zod.wrong_type Zod.type_of app throw];
      eexists; (split; [reflexivity |]);
      unfold Zod.wrong_type; cbn [In app Zod.type_of]; auto.
  - destruct (assoc "title" fields) as [[| b | z | s | l | o] |];
      cbn [Zod.both Zod.map_ok Zod.wrong_type Zod.type_of app throw];
      eexists; (split; [reflexivity |]);
      unfold Zod.wrong_type; cbn [In app Zod.type_of]; auto.
Qed.

(** ** Where validation of [move_items] fails, and where it does not *)

Lemma parse_itemIds_rejected (v : value) p :
  (forall ids, v <> Some (JArr (List.map JStr ids))) ->
  exists own, Zod.parse (Zod.ZArray Zod.ZString) p v = inl own.
Proof.
  intros Hnot.
  destruct v as [[| b | z | s | xs | o] |]; try (eexists; reflexivity).
  change (Zod.parse (Zod.ZArray Zod.ZString) p (Some (JArr xs)))
    with (Zod.map_ok JArr (Zod.parse_elems (Zod.parse Zod.ZString) p 0 xs)).
  destruct (Zod.parse_elems (Zod.parse Zod.ZString) p 0 xs)
    as [own | ys] eqn:Hparse; [now exists own |].
  apply parse_elems_strings_inv in Hparse as [ids ->].
  now destruct (Hnot ids).
Qed.

(** C4, as amended.  A [move_items] request whose [itemIds] is missing or
    is not an array of strings fails validation: the result is an error
    message that holds the issues found under [itemIds], and the world is
    left as it was (no remote call).  An empty array passes: the request
    goes to the store as one PATCH to the source status with body
    [{itemIds: [], targetType}]. *)
Theorem move_items_validation
  (fields : list (string * json)) (t : Status) (id : string) w :
  ((forall ids, assoc "itemIds" fields <> Some (JArr (List.map JStr ids))) ->
   let call := {| call_name := "move_items"; call_args := JObj fields;
                  call_id := id |} in
   exists own rest,
     Zod.parse (Zod.ZArray Zod.ZString) [ Zod.Key "itemIds" ]
       (assoc "itemIds" fields) = inl own /\
     run_tool_call TOOLS call w
     = (w, inr (error_result call
                  (ToolInputParsingException (own ++ rest))))) /\
  http_log (fst (run_tool_call TOOLS
                   {| call_name := "move_items";
                      call_args := move_args [] t; call_id := id |} w))
  = http_log w
    ++ [ {| method := PATCH;
            url := API_BASE_URL ++ "/" ++ status_name (opposite t);
            body := Some (JObj [ ("itemIds", JArr []);
                                 ("targetType", JStr (status_name t)) ]) |} ].
Proof.
  split.
  - intros Hnot call. unfold call.
    destruct (parse_itemIds_rejected (assoc "itemIds" fields)
                [ Zod.Key "itemIds" ] Hnot) as [own Hown].
    rewrite run_tool_call_found with (t := moveItems)
      by exact find_move_items.
    cbn [call_args]. unfold tool_invoke, Zod.safeParse.
    change (schema moveItems) with moveItemsSchema. unfold moveItemsSchema.
    cbn [Zod.parse_shape app].
    change (Zod.parse (Zod.ZObject ?sh) [] (Some (JObj fields)))
      with (Zod.map_ok JObj (Zod.parse_shape Zod.parse [] fields sh)).
    cbn [Zod.parse_shape app]. rewrite Hown.
    destruct (Zod.parse (Zod.ZEnum _) _ _) as [rest | x].
    + exists own, rest. split; reflexivity.
    + exists own, []. split; [reflexivity |].
      cbn [Zod.both Zod.map_ok throw]. now rewrite List.app_nil_r.
  - apply (run_move_items_log _ [] t id w); now destruct t.
Qed.


(** ** Failures of the remote store *)

(** Every tool sends one request and returns the serialised reply. *)
Lemma tool_func_shape (t : Tool) (input : json) :
  In t TOOLS ->
  exists request, forall w,
    func t input w =
    bind (axios_request request)
         (fun response_data => ret (JSON_stringify response_data)) w.
Proof.
  intros Hin. cbn in Hin.
  repeat (destruct Hin as [<- | Hin]); try contradiction;
    eexists; intros w; reflexivity.
Qed.

(** An [AxiosError] out of a tool is a refusal of the store. *)
Lemma tool_invoke_axios_error (t : Tool) (args : json) w1 w2 reason :
  In t TOOLS ->
  tool_invoke t args w1 = (w2, inl (AxiosError reason)) ->
  exists request,
    snd (remote (ext w1) request) = HttpFail reason /\
    http_log w2 = http_log w1 ++ [ request ].
Proof.
  intros Hin Hthrow. unfold tool_invoke in Hthrow.
  destruct (Zod.safeParse (schema t) args) as [issues | input];
    [discriminate Hthrow |].
  destruct (tool_func_shape t input Hin) as [request Hshape].
  rewrite Hshape in Hthrow. unfold bind in Hthrow.
  rewrite axios_request_outcome in Hthrow.
  exists request.
  destruct (snd (remote (ext w1) request)) as [data | reason'];
    [discriminate Hthrow |].
  injection Hthrow as <- ->. now split.
Qed.

(** C5.  In a batch [pre ++ c :: post], let the remote call of [c] fail
    with [reason] after the requests of [pre] have been handled.  The
    failure came from the store refusing the one request of [c]; it is
    turned into the error result of [c]; the requests of [post] are still
    handled, one result each; and the tools node does not throw: the graph
    goes on to [callModel] with all the results appended in order. *)
Theorem remote_failure_is_contained
  (configuration : Configuration) (state : State)
  (pre post : list ToolCall) (c : ToolCall) (t : Tool) w w1 w2 rs1 reason :
  latest_requests state = pre ++ c :: post ->
  List.find (fun t => String.eqb (tool_name t) (call_name c)) TOOLS = Some t ->
  for_each (run_tool_call TOOLS) pre w = (w1, inr rs1) ->
  tool_invoke t (call_args c) w1 = (w2, inl (AxiosError reason)) ->
  exists request w3 rs3,
    snd (remote (ext w1) request) = HttpFail reason /\
    http_log w2 = http_log w1 ++ [ request ] /\
    for_each (run_tool_call TOOLS) post w2 = (w3, inr rs3) /\
    Forall2 answers post rs3 /\
    step configuration "tools" state w
    = (w3, inr ("callModel",
                {| messages := messages state ++ rs1
                               ++ error_result c (AxiosError reason) :: rs3 |})).
Proof.
  intros Hbatch Hfind Hpre Hfail.
  pose proof (List.find_some _ _ Hfind) as [Hin _].
  destruct (tool_invoke_axios_error t (call_args c) w1 w2 reason Hin Hfail)
    as (request & Hrefused & Hlog).
  destruct (for_each_total (run_tool_call TOOLS) answers
              (run_tool_call_total TOOLS) post w2)
    as (w3 & rs3 & Hpost & Hall).
  exists request, w3, rs3. repeat split; try assumption.
  assert (Hc : run_tool_call TOOLS c w1
               = (w2, inr (error_result c (AxiosError reason))))
    by (rewrite (run_tool_call_found c t w1 Hfind); now rewrite Hfail).
  assert (Htail : for_each (run_tool_call TOOLS) (c :: post) w1
                  = (w3, inr (error_result c (AxiosError reason) :: rs3))).
  { cbn [for_each]. rewrite (bind_returns _ _ _ _ _ Hc).
    now rewrite (bind_returns _ _ _ _ _ Hpost). }
  rewrite step_tools. unfold ToolNode. rewrite Hbatch.
  rewrite (bind_returns _ _ _ _ _
             (bind_returns _ _ _ _ _ (for_each_app _ _ _ _ _ _ _ _ Hpre Htail))).
  reflexivity.
Qed.

(** ** The system directive *)

Lemma string_app_assoc (a b c : string) :
  ((a ++ b) ++ c = a ++ (b ++ c))%string.
Proof. induction a as [| x a IH]; cbn; [reflexivity | now rewrite IH]. Qed.

Lemma get_substitution_plain (matched before after rep : string) :
  occurs "$" rep = false ->
  get_substitution matched before after rep = rep.
Proof.
  induction rep as [| c rep IH]; intros Hplain; [reflexivity |].
  cbn [occurs] in Hplain. apply Bool.orb_false_iff in Hplain as [Hc Hrep].
  cbn [get_substitution].
  rewrite Ascii.eqb_sym in Hc. rewrite Hc. now rewrite IH.
Qed.

Lemma replace_plain (s pat rep : string) :
  occurs "$" rep = false -> JS.replace s pat rep = splice s pat rep.
Proof.
  intros Hplain. unfold JS.replace, splice.
  destruct (split_at_first pat s) as [[before after] |]; [| reflexivity].
  now rewrite get_substitution_plain.
Qed.

Lemma starts_with_app (pat s t : string) :
  starts_with pat s = true -> starts_with pat (s ++ t) = true.
Proof.
  revert s. induction pat as [| a pat IH]; intros s H; [reflexivity |].
  destruct s as [| b s]; [discriminate H |].
  cbn [starts_with append] in *.
  apply Bool.andb_true_iff in H as [Hab Hrest].
  now rewrite Hab, IH.
Qed.

Lemma skip_app (pat s t : string) :
  starts_with pat s = true ->
  (skip (String.length pat) (s ++ t) = skip (String.length pat) s ++ t)%string.
Proof.
  revert s. induction pat as [| a pat IH]; intros s H; [reflexivity |].
  destruct s as [| b s]; [discriminate H |].
  cbn [starts_with] in H. apply Bool.andb_true_iff in H as [_ Hrest].
  cbn [String.length skip append]. now apply IH.
Qed.

(** A match that starts inside [s] cannot run over into a text whose
    first character the pattern does not contain. *)
Lemma starts_with_app_inv (pat s t : string) (c : ascii) :
  occurs c pat = false ->
  starts_with pat (s ++ String c t) = true ->
  starts_with pat s = true.
Proof.
  revert s. induction pat as [| a pat IH]; intros s Hc H; [reflexivity |].
  cbn [occurs] in Hc. apply Bool.orb_false_iff in Hc as [Hca Hpat].
  destruct s as [| b s]; cbn [append starts_with] in *.
  - apply Bool.andb_true_iff in H as [Hac _].
    rewrite Ascii.eqb_sym in Hca. congruence.
  - apply Bool.andb_true_iff in H as [Hab Hrest].
    rewrite Hab. now apply IH.
Qed.

Lemma starts_with_app_eq (pat s t : string) (c : ascii) :
  occurs c pat = false ->
  starts_with pat (s ++ String c t) = starts_with pat s.
Proof.
  intros Hc.
  destruct (starts_with pat s) eqn:Hs.
  - now apply starts_with_app.
  - destruct (starts_with pat (s ++ String c t)) eqn:Hst; [| reflexivity].
    apply (starts_with_app_inv _ _ _ _ Hc) in Hst. congruence.
Qed.

Lemma split_at_first_app_some (pat s t before after : string) (c : ascii) :
  occurs c pat = false ->
  split_at_first pat s = Some (before, after) ->
  split_at_first pat (s ++ String c t)
  = Some (before, (after ++ String c t)%string).
Proof.
  intros Hc. revert before.
  induction s as [| b s IH]; intros before H.
  - cbn [split_at_first] in H.
    destruct pat as [| a pat]; [| discriminate H].
    injection H as <- <-. reflexivity.
  - change (String b s ++ String c t)%string
      with (String b (s ++ String c t)).
    cbn [split_at_first] in *.
    change (String b (s ++ String c t))
      with (String b s ++ String c t)%string.
    rewrite (starts_with_app_eq pat (String b s) t c Hc).
    destruct (starts_with pat (String b s)) eqn:Hp.
    + injection H as <- <-. now rewrite (skip_app _ _ _ Hp).
    + destruct (split_at_first pat s) as [[b' a'] |]; [| discriminate H].
      injection H as <- <-. now rewrite (IH b' eq_refl).
Qed.

Lemma split_at_first_app_none (pat s t : string) (c : ascii) :
  occurs c pat = false ->
  split_at_first pat s = None ->
  split_at_first pat (String c t) = None ->
  split_at_first pat (s ++ String c t) = None.
Proof.
  intros Hc Hs Ht. induction s as [| b s IH]; [exact Ht |].
  change (String b s ++ String c t)%string
    with (String b (s ++ String c t)).
  cbn [split_at_first] in *.
  change (String b (s ++ String c t))
    with (String b s ++ String c t)%string.
  rewrite (starts_with_app_eq pat (String b s) t c Hc).
  destruct (starts_with pat (String b s)); [discriminate Hs |].
  destruct (split_at_first pat s) as [[b' a'] |]; [discriminate Hs |].
  now rewrite IH.
Qed.

(** Substituting in the template and then appending a text that cannot
    take part in a match is substituting in the whole text. *)
Lemma splice_app (s t pat rep : string) (c : ascii) :
  occurs c pat = false ->
  split_at_first pat (String c t) = None ->
  (splice s pat rep ++ String c t = splice (s ++ String c t) pat rep)%string.
Proof.
  intros Hc Ht. unfold splice.
  destruct (split_at_first pat s) as [[before after] |] eqn:Hs.
  - rewrite (split_at_first_app_some _ _ t _ _ c Hc Hs).
    now rewrite !string_app_assoc.
  - now rewrite (split_at_first_app_none _ _ t c Hc Hs Ht).
Qed.

Lemma instructions_start_on_a_new_line :
  AGENT_INSTRUCTIONS = String "010" (skip 1 AGENT_INSTRUCTIONS).
Proof. vm_compute. reflexivity. Qed.

Lemma instructions_hold_no_placeholder :
  split_at_first "{system_time}" (String "010" (skip 1 AGENT_INSTRUCTIONS))
  = None.
Proof. vm_compute. reflexivity. Qed.

Lemma system_content_splice (configuration : Configuration) (now : string) :
  occurs "$" now = false ->
  system_content configuration now
  = splice (systemPromptTemplate configuration ++ AGENT_INSTRUCTIONS)
      "{system_time}" now.
Proof.
  intros Hplain. unfold system_content. rewrite (replace_plain _ _ _ Hplain).
  rewrite instructions_start_on_a_new_line.
  apply splice_app; [reflexivity | exact instructions_hold_no_placeholder].
Qed.

(** C8.  At every call of [callModel], the first message sent to the model
    is a system message whose text is the configured template with the
    clock reading of that very call substituted for the first
    [{system_time}], followed by the fixed instructions; the history
    follows it unchanged; the update holds the model's response only, so
    the system message is not stored in the conversation.  A clock
    reading has no [$], and then the text is the whole static text
    (template and instructions) with the reading put in place of the
    placeholder. *)
Theorem system_directive_is_fresh
  (configuration : Configuration) (state : State) w :
  let now := toISOString_now (ext w) in
  let directive :=
    SystemMessage
      (JS.replace (systemPromptTemplate configuration) "{system_time}" now
       ++ AGENT_INSTRUCTIONS) in
  model_log (fst (callModel state configuration w))
  = model_log w ++ [ directive :: messages state ] /\
  (forall w' update,
     callModel state configuration w = (w', inr update) ->
     exists text calls,
       update = {| messages := [ AIMessage text calls ] |} /\
       messages (add_messages state update)
       = messages state ++ [ AIMessage text calls ]) /\
  (occurs "$" now = false ->
   (JS.replace (systemPromptTemplate configuration) "{system_time}" now
    ++ AGENT_INSTRUCTIONS)%string
   = splice (systemPromptTemplate configuration ++ AGENT_INSTRUCTIONS)
       "{system_time}" now).
Proof.
  intros now directive. split; [| split].
  - unfold callModel, bind, Date_now_toISOString, chat_invoke.
    fold now. unfold system_content. fold directive.
    destruct (chat _ _ _) as [e' [reason | response]]; reflexivity.
  - intros w' update H.
    unfold callModel, bind, Date_now_toISOString, chat_invoke in H.
    destruct (chat _ _ _) as [e' [reason | response]]; [discriminate H |].
    injection H as <- <-.
    now exists (content response), (tool_calls response).
  - intros Hplain. exact (system_content_splice configuration now Hplain).
Qed.

(** ** The conversation only grows *)

Lemma step_extends (configuration : Configuration) node state w w' node' state' :
  step configuration node state w = (w', inr (node', state')) ->
  exists new, messages state' = messages state ++ new.
Proof.
  unfold step. intros H.
  destruct (String.eqb node "__start__").
  - injection H as <- <- <-. exists []. now rewrite List.app_nil_r.
  - destruct (String.eqb node "callModel").
    + apply bind_inversion in H as (w1 & update & _ & Hret).
      injection Hret as <- <- <-. now exists (messages update).
    + destruct (String.eqb node "tools").
      * apply bind_inversion in H as (w1 & update & _ & Hret).
        injection Hret as <- <- <-. now exists (messages update).
      * injection H as <- <- <-. exists []. now rewrite List.app_nil_r.
Qed.

Lemma run_extends (configuration : Configuration) fuel :
  forall node state w w' node' state',
    run configuration fuel node state w = (w', inr (node', state')) ->
    exists new, messages state' = messages state ++ new.
Proof.
  induction fuel as [| fuel IH]; intros node state w w' node' state' H.
  - injection H as <- <- <-. exists []. now rewrite List.app_nil_r.
  - cbn [run] in H. destruct (String.eqb node "__end__").
    + injection H as <- <- <-. exists []. now rewrite List.app_nil_r.
    + apply bind_inversion in H as (w1 & [node1 state1] & Hstep & Hrun).
      apply step_extends in Hstep as [new1 H1].
      apply IH in Hrun as [new2 H2]. cbn [snd] in H2.
      exists (new1 ++ new2). now rewrite H2, H1, List.app_assoc.
Qed.

(** C9.  Whatever node runs, the conversation after the step is the
    conversation before it with messages added at the end: every message
    keeps its position and its content.  The same holds for any number of
    steps. *)
Theorem conversation_is_append_only
  (configuration : Configuration) (fuel : nat) node state w w' node' state' :
  step configuration node state w = (w', inr (node', state')) \/
  run configuration fuel node state w = (w', inr (node', state')) ->
  (exists new, messages state' = messages state ++ new) /\
  (forall i m, nth_error (messages state) i = Some m ->
               nth_error (messages state') i = Some m).
Proof.
  intros H.
  assert (Hext : exists new, messages state' = messages state ++ new).
  { destruct H as [H | H];
      [exact (step_extends _ _ _ _ _ _ _ H) | exact (run_extends _ _ _ _ _ _ _ _ H)]. }
  split; [exact Hext |].
  destruct Hext as [new ->]. intros i m Hi.
  rewrite nth_error_app1; [exact Hi |].
  apply nth_error_Some. congruence.
Qed.

End Properties.

(** * The properties on the scripted world *)

Lemma every_request_answered_witness :
  let w := scripted_world 0 in
  let w1 := fst (@callModel scripted user_asks scripted_configuration w) in
  @callModel scripted user_asks scripted_configuration w
  = (w1, inr {| messages := [ AIMessage EmptyString (Some scripted_calls) ] |})
  /\ scripted_calls <> []
  /\ exists w2 results,
       @run scripted scripted_configuration 2 "callModel" user_asks w
       = (w2, inr ("callModel",
                   {| messages :=
                        messages user_asks
                        ++ [ AIMessage EmptyString (Some scripted_calls) ]
                        ++ results |})) /\
       List.length results = List.length scripted_calls /\
       Forall2 answers scripted_calls results /\
       model_log w2 = model_log w1.
Proof.
  intros w w1.
  assert (H1 : @callModel scripted user_asks scripted_configuration w
               = (w1, inr {| messages :=
                               [ AIMessage EmptyString (Some scripted_calls) ] |}))
    by (vm_compute; reflexivity).
  assert (H2 : scripted_calls <> []) by discriminate.
  split; [exact H1 | split; [exact H2 |]].
  exact (@every_request_answered scripted scripted_configuration user_asks
           w w1 EmptyString scripted_calls H1 H2).
Defined.

Lemma route_ends_without_requests_witness :
  let w := scripted_world 1 in
  let w1 := fst (@callModel scripted user_asks scripted_configuration w) in
  @callModel scripted user_asks scripted_configuration w
  = (w1, inr {| messages := [ AIMessage "Done." None ] |})
  /\ action_requests (AIMessage "Done." None) = []
  /\ @run scripted scripted_configuration 5 "callModel" user_asks w
     = (w1, inr ("__end__",
                 {| messages := messages user_asks
                                ++ [ AIMessage "Done." None ] |}))
  /\ http_log w1 = http_log w.
Proof.
  intros w w1.
  assert (H1 : @callModel scripted user_asks scripted_configuration w
               = (w1, inr {| messages := [ AIMessage "Done." None ] |}))
    by (vm_compute; reflexivity).
  split; [exact H1 | split; [reflexivity |]].
  exact (proj2 (proj2 (@route_ends_without_requests scripted))
           scripted_configuration user_asks w w1 "Done." None 4 H1 eq_refl).
Defined.

Lemma move_items_patches_source_witness :
  let fields := [ ("note", JStr "urgent");
                  ("targetType", JStr "completed");
                  ("itemIds", JArr [ JStr "a"; JStr "b" ]) ] in
  assoc "itemIds" fields = Some (JArr (List.map JStr [ "a"; "b" ])) /\
  assoc "targetType" fields = Some (JStr (status_name completed)) /\
  http_log (fst (@run_tool_call scripted TOOLS
                   {| call_name := "move_items"; call_args := JObj fields;
                      call_id := "call_7" |} (scripted_world 3)))
  = [ {| method := PATCH;
         url := "http://localhost:3000/api/workflows/pending";
         body := Some (JObj [ ("itemIds", JArr [ JStr "a"; JStr "b" ]);
                              ("targetType", JStr "completed") ]) |} ].
Proof.
  intros fields.
  split; [reflexivity | split; [reflexivity |]].
  exact (proj2 (proj2
           (@move_items_patches_source scripted fields [ "a"; "b" ] completed
              "call_7" (scripted_world 3) eq_refl eq_refl))).
Defined.

(** The claim of a validation failure on an empty [itemIds], tried on the
    scripted world: validation accepts the arguments, one PATCH goes to
    the store, and the result is not a validation error. *)
Lemma move_items_empty_array_counterexample :
  let call := {| call_name := "move_items";
                 call_args := move_args [] completed;
                 call_id := "call_1" |} in
  Zod.safeParse moveItemsSchema (call_args call)
  = inr (move_args [] completed) /\
  http_log (fst (@run_tool_call scripted TOOLS call (scripted_world 0)))
  = [ {| method := PATCH;
         url := "http://localhost:3000/api/workflows/pending";
         body := Some (JObj [ ("itemIds", JArr []);
                              ("targetType", JStr "completed") ]) |} ] /\
  ~ (exists issues,
       @run_tool_call scripted TOOLS call (scripted_world 0)
       = (scripted_world 0,
          inr (error_result call (ToolInputParsingException issues)))).
Proof.
  intros call. split; [reflexivity | split; [reflexivity |]].
  intros [issues H].
  apply (f_equal (fun r => List.length (http_log (fst r)))) in H.
  vm_compute in H. discriminate H.
Qed.

Lemma move_items_validation_witness :
  let fields := [ ("itemIds", JStr "a"); ("targetType", JStr "completed") ] in
  let call := {| call_name := "move_items"; call_args := JObj fields;
                 call_id := "call_2" |} in
  (forall ids, assoc "itemIds" fields <> Some (JArr (List.map JStr ids))) /\
  exists own rest,
    Zod.parse (Zod.ZArray Zod.ZString) [ Zod.Key "itemIds" ]
      (assoc "itemIds" fields) = inl own /\
    @run_tool_call scripted TOOLS call (scripted_world 0)
    = (scripted_world 0,
       inr (error_result call (ToolInputParsingException (own ++ rest)))).
Proof.
  intros fields call.
  assert (H : forall ids,
             assoc "itemIds" fields <> Some (JArr (List.map JStr ids)))
    by (intros ids; discriminate).
  split; [exact H |].
  exact (proj1 (@move_items_validation scripted fields completed "call_2"
                  (scripted_world 0)) H).
Defined.

Lemma remote_failure_is_contained_witness :
  let state := {| messages := [ HumanMessage "tidy up my tasks";
                                AIMessage EmptyString (Some scripted_calls) ] |} in
  let pre := firstn 1 scripted_calls in
  let c := {| call_name := "clear_items";
              call_args := JObj [ ("type", JStr "pending") ];
              call_id := "call_2" |} in
  let post := skipn 2 scripted_calls in
  let w := scripted_world 1 in
  let w1 := fst (@for_each scripted _ _ (run_tool_call TOOLS) pre w) in
  let w2 := fst (@tool_invoke scripted clearItems (call_args c) w1) in
  let rs1 := [ ToolMessage "[object Object]" "get_pending_items" "call_1" ] in
  let reason := "Request failed with status code 500" in
  latest_requests state = pre ++ c :: post /\
  @for_each scripted _ _ (run_tool_call TOOLS) pre w = (w1, inr rs1) /\
  @tool_invoke scripted clearItems (call_args c) w1
  = (w2, inl (AxiosError reason)) /\
  exists request w3 rs3,
    snd (@remote scripted (ext w1) request) = HttpFail reason /\
    http_log w2 = http_log w1 ++ [ request ] /\
    @for_each scripted _ _ (run_tool_call TOOLS) post w2 = (w3, inr rs3) /\
    Forall2 answers post rs3 /\
    @step scripted scripted_configuration "tools" state w
    = (w3, inr ("callModel",
                {| messages := messages state ++ rs1
                               ++ error_result c (AxiosError reason) :: rs3 |})).
Proof.
  intros state pre c post w w1 w2 rs1 reason.
  assert (H1 : latest_requests state = pre ++ c :: post) by reflexivity.
  assert (H2 : @for_each scripted _ _ (run_tool_call TOOLS) pre w
               = (w1, inr rs1)) by (vm_compute; reflexivity).
  assert (H3 : @tool_invoke scripted clearItems (call_args c) w1
               = (w2, inl (AxiosError reason))) by (vm_compute; reflexivity).
  split; [exact H1 | split; [exact H2 | split; [exact H3 |]]].
  exact (@remote_failure_is_contained scripted scripted_configuration state
           pre post c clearItems w w1 w2 rs1 reason H1 eq_refl H2 H3).
Defined.

Lemma add_pending_item_requires_fields_witness :
  let fields := [ ("title", JStr "Write report") ] in
  let call := {| call_name := "add_pending_item"; call_args := JObj fields;
                 call_id := "call_4" |} in
  assoc "description" fields = None /\
  exists issues,
    @run_tool_call scripted TOOLS call (scripted_world 0)
    = (scripted_world 0,
       inr (error_result call (ToolInputParsingException issues))) /\
    In {| Zod.path := [ Zod.Key "description" ];
          Zod.code := Zod.invalid_type "string" "undefined" |} issues.
Proof.
  intros fields call. split; [reflexivity |].
  exact (@add_pending_item_requires_fields scripted "description" fields
           "call_4" (scripted_world 0) (or_intror eq_refl) eq_refl).
Defined.

Lemma clear_items_deletes_one_status_witness :
  let fields := [ ("type", JStr "completed") ] in
  let call := {| call_name := "clear_items"; call_args := JObj fields;
                 call_id := "call_5" |} in
  let request := {| method := DELETE;
                    url := "http://localhost:3000/api/workflows/completed";
                    body := undefined |} in
  assoc "type" fields = Some (JStr (status_name completed)) /\
  http_log (fst (@run_tool_call scripted TOOLS call (scripted_world 0)))
  = [ request ] /\
  url request <> "http://localhost:3000/api/workflows/pending".
Proof.
  intros fields call request.
  pose proof (@clear_items_deletes_one_status scripted fields completed
                "call_5" (scripted_world 0) eq_refl)
    as (_ & Hlog & Hother & _).
  split; [reflexivity | split; [exact Hlog | exact Hother]].
Defined.

Lemma system_directive_is_fresh_witness :
  let w := scripted_world 4 in
  let now := "2024-05-01T10:00:04.000Z" in
  @toISOString_now scripted (ext w) = now /\
  occurs "$" now = false /\
  (JS.replace (systemPromptTemplate scripted_configuration)
     "{system_time}" now ++ AGENT_INSTRUCTIONS)%string
  = splice (systemPromptTemplate scripted_configuration ++ AGENT_INSTRUCTIONS)
      "{system_time}" now.
Proof.
  intros w now. split; [reflexivity | split; [reflexivity |]].
  exact (proj2 (proj2 (@system_directive_is_fresh scripted
                         scripted_configuration user_asks w)) eq_refl).
Defined.

Lemma conversation_is_append_only_witness :
  let w := scripted_world 1 in
  let w' := fst (@step scripted scripted_configuration "callModel"
                   user_asks w) in
  let state' := {| messages := [ HumanMessage "tidy up my tasks";
                                 AIMessage "Done." None ] |} in
  @step scripted scripted_configuration "callModel" user_asks w
  = (w', inr ("__end__", state')) /\
  (exists new, messages state' = messages user_asks ++ new) /\
  (forall i m, nth_error (messages user_asks) i = Some m ->
               nth_error (messages state') i = Some m).
Proof.
  intros w w' state'.
  assert (H : @step scripted scripted_configuration "callModel" user_asks w
              = (w', inr ("__end__", state'))) by (vm_compute; reflexivity).
  split; [exact H |].
  exact (@conversation_is_append_only scripted scripted_configuration 0
           "callModel" user_asks w w' "__end__" state' (or_introl H)).
Defined.

(** * Further properties of the tools and of the graph *)

(** ** The first occurrence of a pattern *)

Lemma starts_with_self (pat rest : string) :
  starts_with pat (pat ++ rest) = true.
Proof.
  induction pat as [| a pat IH]; [reflexivity |].
  cbn [append starts_with]. now rewrite Ascii.eqb_refl, IH.
Qed.

Lemma skip_self (pat rest : string) :
  skip (String.length pat) (pat ++ rest) = rest.
Proof. induction pat as [| a pat IH]; [reflexivity | exact IH]. Qed.

Lemma starts_with_skip (pat s : string) :
  starts_with pat s = true ->
  s = (pat ++ skip (String.length pat) s)%string.
Proof.
  revert s. induction pat as [| a pat IH]; intros s H; [reflexivity |].
  destruct s as [| b s]; [discriminate H |].
  cbn [starts_with] in H. apply Bool.andb_true_iff in H as [Hab Hrest].
  apply Ascii.eqb_eq in Hab as ->.
  cbn [String.length skip append]. now rewrite <- (IH s Hrest).
Qed.

(** What [split_at_first] returns are the two sides of an occurrence. *)
Lemma split_at_first_sound (pat s before after : string) :
  split_at_first pat s = Some (before, after) ->
  s = (before ++ pat ++ after)%string.
Proof.
  revert before. induction s as [| c s IH]; intros before H.
  - cbn [split_at_first] in H.
    destruct pat as [| a pat]; [| discriminate H].
    now injection H as <- <-.
  - cbn [split_at_first] in H.
    destruct (starts_with pat (String c s)) eqn:Hp.
    + injection H as <- <-. exact (starts_with_skip _ _ Hp).
    + destruct (split_at_first pat s) as [[b' a'] |]; [| discriminate H].
      injection H as <- <-. cbn [append]. now rewrite <- (IH b' eq_refl).
Qed.

(** It finds an occurrence whenever there is one. *)
Lemma split_at_first_complete (pat s : string) :
  contains pat s -> split_at_first pat s <> None.
Proof.
  intros (x & y & ->). induction x as [| c x IH].
  - cbn [append]. destruct (pat ++ y)%string eqn:Hs.
    + cbn [split_at_first].
      destruct pat; [discriminate | discriminate Hs].
    + rewrite <- Hs. unfold split_at_first at 1.
      destruct (pat ++ y)%string eqn:Hs'; [discriminate |].
      rewrite <- Hs'. now rewrite starts_with_self.
  - cbn [append split_at_first].
    destruct (starts_with pat _); [discriminate |].
    destruct (split_at_first pat (x ++ pat ++ y)) as [[b a] |];
      [discriminate | contradiction].
Qed.

(** A pattern whose first character does not occur in [before] is first
    met right after [before]. *)
Lemma split_at_first_found (c : ascii) (pat before after : string) :
  occurs c before = false ->
  split_at_first (String c pat) (before ++ String c pat ++ after)
  = Some (before, after).
Proof.
  intros Hfree. induction before as [| b before IH].
  - cbn [append]. unfold split_at_first.
    change (String c (pat ++ after)) with (String c pat ++ after)%string.
    now rewrite starts_with_self, skip_self.
  - cbn [occurs] in Hfree.
    apply Bool.orb_false_iff in Hfree as [Hcb Hfree].
    cbn [append split_at_first starts_with]. rewrite Hcb. cbn [andb].
    cbn [append] in IH. now rewrite (IH Hfree).
Qed.

(** ** The system directive at its edges *)

(** X1.  When the configured template does not hold [{system_time}], the
    clock reading is left out altogether: the system text is the template
    followed by the fixed instructions, the same at every invocation. *)
Theorem directive_without_placeholder
  (configuration : Configuration) (now : string) :
  ~ contains "{system_time}" (systemPromptTemplate configuration) ->
  system_content configuration now
  = (systemPromptTemplate configuration ++ AGENT_INSTRUCTIONS)%string.
Proof.
  intros Habsent. unfold system_content, JS.replace.
  destruct (split_at_first "{system_time}" (systemPromptTemplate configuration))
    as [[before after] |] eqn:Hsplit; [| reflexivity].
  exfalso. apply Habsent. exists before, after.
  exact (split_at_first_sound _ _ _ _ Hsplit).
Qed.

Lemma not_contains_when_not_found (pat s : string) :
  split_at_first pat s = None -> ~ contains pat s.
Proof. intros Hnone Hc. now apply (split_at_first_complete pat s Hc). Qed.

Lemma directive_without_placeholder_witness :
  let configuration := {| systemPromptTemplate := "You are terse.";
                          model := "demo-model" |} in
  ~ contains "{system_time}" (systemPromptTemplate configuration) /\
  system_content configuration "2024-05-01T10:00:00.000Z"
  = system_content configuration "2031-12-31T23:59:59.999Z".
Proof.
  intros configuration.
  assert (H : ~ contains "{system_time}" (systemPromptTemplate configuration))
    by (apply not_contains_when_not_found; reflexivity).
  split; [exact H |].
  rewrite (directive_without_placeholder configuration
             "2024-05-01T10:00:00.000Z" H).
  rewrite (directive_without_placeholder configuration
             "2031-12-31T23:59:59.999Z" H).
  reflexivity.
Defined.

(** X2.  Only the first [{system_time}] of the template is replaced: with
    no brace before it, the text before and the text after it, later
    placeholders included, are passed on as they are. *)
Theorem directive_replaces_first_placeholder_only
  (configuration : Configuration) (before after now : string) :
  systemPromptTemplate configuration
  = (before ++ "{system_time}" ++ after)%string ->
  occurs "{" before = false ->
  occurs "$" now = false ->
  system_content configuration now
  = (before ++ now ++ after ++ AGENT_INSTRUCTIONS)%string.
Proof.
  intros Htemplate Hbrace Hplain. unfold system_content.
  rewrite (replace_plain _ _ _ Hplain). unfold splice. rewrite Htemplate.
  change "{system_time}" with (String "{" "system_time}").
  rewrite (split_at_first_found "{" "system_time}" before after Hbrace).
  now rewrite !string_app_assoc.
Qed.

Lemma directive_replaces_first_placeholder_only_witness :
  let configuration :=
    {| systemPromptTemplate := "Now: {system_time}. Format: {system_time}";
       model := "demo-model" |} in
  systemPromptTemplate configuration
  = ("Now: " ++ "{system_time}" ++ ". Format: {system_time}")%string /\
  occurs "{" "Now: " = false /\
  occurs "$" "2024-05-01T10:00:00.000Z" = false /\
  system_content configuration "2024-05-01T10:00:00.000Z"
  = ("Now: " ++ "2024-05-01T10:00:00.000Z" ++ ". Format: {system_time}"
     ++ AGENT_INSTRUCTIONS)%string.
Proof.
  intros configuration.
  split; [reflexivity | split; [reflexivity | split; [reflexivity |]]].
  exact (directive_replaces_first_placeholder_only configuration
           "Now: " ". Format: {system_time}" "2024-05-01T10:00:00.000Z"
           eq_refl eq_refl eq_refl).
Defined.

(** ** What the schemas of the tools accept *)

Lemma both_inr {A B C : Type} (f : A -> B -> C)
  (x : list Zod.issue + A) (y : list Zod.issue + B) (c : C) :
  Zod.both f x y = inr c -> exists a b, x = inr a /\ y = inr b /\ c = f a b.
Proof.
  destruct x as [e1 | a], y as [e2 | b]; cbn; intros H; try discriminate H.
  injection H as <-. now exists a, b.
Qed.

Lemma map_ok_inr {A B : Type} (f : A -> B) (x : list Zod.issue + A) (b : B) :
  Zod.map_ok f x = inr b -> exists a, x = inr a /\ b = f a.
Proof.
  destruct x as [e | a]; cbn; intros H; [discriminate H |].
  injection H as <-. now exists a.
Qed.

Lemma parse_string_inr (p : list Zod.segment) (v : value) (x : json) :
  Zod.parse Zod.ZString p v = inr x ->
  exists s, v = Some (JStr s) /\ x = JStr s.
Proof.
  destruct v as [[| b | z | s | l | o] |]; cbn; intros H;
    try discriminate H.
  injection H as <-. now exists s.
Qed.

Lemma parse_status_inr (p : list Zod.segment) (v : value) (x : json) :
  Zod.parse (Zod.ZEnum [ "pending"; "completed" ]) p v = inr x ->
  exists t, v = Some (JStr (status_name t)) /\ x = JStr (status_name t).
Proof.
  destruct v as [[| b | z | s | l | o] |]; cbn [Zod.parse]; intros H;
    try discriminate H.
  cbn [existsb] in H.
  destruct (String.eqb_spec s "pending") as [-> | _].
  - injection H as <-. now exists pending.
  - destruct (String.eqb_spec s "completed") as [-> | _];
      [| discriminate H].
    injection H as <-. now exists completed.
Qed.

Lemma parse_status_ok (p : list Zod.segment) (t : Status) :
  Zod.parse (Zod.ZEnum [ "pending"; "completed" ]) p
    (Some (JStr (status_name t)))
  = inr (JStr (status_name t)).
Proof. now destruct t. Qed.

Lemma parse_string_array_inr (p : list Zod.segment) (v : value) (x : json) :
  Zod.parse (Zod.ZArray Zod.ZString) p v = inr x ->
  exists ids, v = Some (JArr (List.map JStr ids)) /\
              x = JArr (List.map JStr ids).
Proof.
  destruct v as [[| b | z | s | xs | o] |]; try (cbn; discriminate).
  change (Zod.parse (Zod.ZArray Zod.ZString) p (Some (JArr xs)))
    with (Zod.map_ok JArr (Zod.parse_elems (Zod.parse Zod.ZString) p 0 xs)).
  intros H. apply map_ok_inr in H as (ys & Hys & ->).
  destruct (parse_elems_strings_inv _ _ _ _ Hys) as [ids ->].
  rewrite parse_elems_strings in Hys. injection Hys as <-.
  now exists ids.
Qed.

Lemma safeParse_object_inr (shape : list (string * Zod.schema))
  (data v : json) :
  Zod.safeParse (Zod.ZObject shape) data = inr v ->
  exists fields members,
    data = JObj fields /\ v = JObj members /\
    Zod.parse_shape Zod.parse [] fields shape = inr members.
Proof.
  unfold Zod.safeParse.
  destruct data as [| b | z | s | l | fields]; try (cbn; discriminate).
  change (Zod.parse (Zod.ZObject shape) [] (Some (JObj fields)))
    with (Zod.map_ok JObj (Zod.parse_shape Zod.parse [] fields shape)).
  intros H. apply map_ok_inr in H as (members & Hm & ->).
  now exists fields, members.
Qed.

(** X3.  The schema of the two creating tools accepts exactly the objects
    whose [title] and [description] are strings, the empty string
    included, and hands on these two members only: every other key of
    the arguments is dropped. *)
Theorem itemSchema_accepts (data v : json) :
  Zod.safeParse itemSchema data = inr v <->
  exists fields title text,
    data = JObj fields /\
    assoc "title" fields = Some (JStr title) /\
    assoc "description" fields = Some (JStr text) /\
    v = JObj [ ("title", JStr title); ("description", JStr text) ].
Proof.
  split.
  - intros H. apply safeParse_object_inr in H as (fields & members & -> & -> & H).
    cbn [Zod.parse_shape] in H.
    apply both_inr in H as (x1 & r1 & H1 & H & ->).
    apply both_inr in H as (x2 & r2 & H2 & H & ->).
    injection H as <-.
    apply parse_string_inr in H1 as (title & Ht & ->).
    apply parse_string_inr in H2 as (text & Hd & ->).
    now exists fields, title, text.
  - intros (fields & title & text & -> & Ht & Hd & ->).
    unfold Zod.safeParse, itemSchema. cbn [Zod.parse Zod.parse_shape].
    now rewrite Ht, Hd.
Qed.

(** X4.  The schema of [move_items] accepts exactly the objects whose
    [itemIds] is an array of strings, of any length, and whose
    [targetType] is one of the two statuses, and hands on these two
    members only. *)
Theorem moveItemsSchema_accepts (data v : json) :
  Zod.safeParse moveItemsSchema data = inr v <->
  exists fields ids t,
    data = JObj fields /\
    assoc "itemIds" fields = Some (JArr (List.map JStr ids)) /\
    assoc "targetType" fields = Some (JStr (status_name t)) /\
    v = move_args ids t.
Proof.
  split.
  - intros H. apply safeParse_object_inr in H as (fields & members & -> & -> & H).
    cbn [Zod.parse_shape] in H.
    apply both_inr in H as (x1 & r1 & H1 & H & ->).
    apply both_inr in H as (x2 & r2 & H2 & H & ->).
    injection H as <-.
    apply parse_string_array_inr in H1 as (ids & Hi & ->).
    apply parse_status_inr in H2 as (t & Ht & ->).
    now exists fields, ids, t.
  - intros (fields & ids & t & -> & Hi & Ht & ->).
    exact (safeParse_move_args fields ids t Hi Ht).
Qed.

Lemma itemSchema_accepts_witness :
  Zod.safeParse itemSchema
    (JObj [ ("description", JStr EmptyString); ("priority", JNum 1);
            ("title", JStr "Write report") ])
  = inr (JObj [ ("title", JStr "Write report");
                ("description", JStr EmptyString) ]).
Proof.
  apply (proj2 (itemSchema_accepts _ _)).
  exists [ ("description", JStr EmptyString); ("priority", JNum 1);
           ("title", JStr "Write report") ], "Write report", EmptyString.
  repeat split.
Defined.

Lemma moveItemsSchema_accepts_witness :
  Zod.safeParse moveItemsSchema
    (JObj [ ("targetType", JStr "pending"); ("itemIds", JArr []) ])
  = inr (move_args [] pending).
Proof.
  apply (proj2 (moveItemsSchema_accepts _ _)).
  exists [ ("targetType", JStr "pending"); ("itemIds", JArr []) ], [], pending.
  repeat split.
Defined.

Section ToolProperties.

Context {X : Externals}.

(** X5.  The schema of [clear_items] accepts exactly the objects whose
    [type] is one of the two statuses and hands on that member only. *)
Theorem clearItems_schema_accepts (data v : json) :
  Zod.safeParse (schema clearItems) data = inr v <->
  exists fields t,
    data = JObj fields /\
    assoc "type" fields = Some (JStr (status_name t)) /\
    v = JObj [ ("type", JStr (status_name t)) ].
Proof.
  cbn [schema clearItems]. split.
  - intros H. apply safeParse_object_inr in H as (fields & members & -> & -> & H).
    cbn [Zod.parse_shape] in H.
    apply both_inr in H as (x1 & r1 & H1 & H & ->).
    injection H as <-.
    apply parse_status_inr in H1 as (t & Ht & ->).
    now exists fields, t.
  - intros (fields & t & -> & Ht & ->).
    unfold Zod.safeParse. cbn [Zod.parse Zod.parse_shape]. rewrite Ht.
    now destruct t.
Qed.

(** The schema of the two listing tools accepts every object and hands on
    the empty object. *)
Lemma get_tool_schema_accepts (t : Status) (data v : json) :
  Zod.safeParse (schema (get_tool t)) data = inr v <->
  exists fields, data = JObj fields /\ v = JObj [].
Proof.
  destruct t; cbn [get_tool schema getPendingItems getCompletedItems]; split.
  1, 3: intros H; apply safeParse_object_inr in H
          as (fields & members & -> & -> & H);
        cbn [Zod.parse_shape] in H; injection H as <-; now exists fields.
  1, 2: intros (fields & -> & ->); reflexivity.
Qed.

(** ** The creating and the listing tools *)

Lemma func_add_tool (t : Status) (input : json) w :
  func (add_tool t) input w =
  bind (axios_request {| method := POST; url := endpoint t;
                         body := Some input |})
       (fun response_data => ret (JSON_stringify response_data)) w.
Proof. now destruct t. Qed.

Lemma func_get_tool (t : Status) (input : json) w :
  func (get_tool t) input w =
  bind (axios_request {| method := GET; url := endpoint t;
                         body := undefined |})
       (fun response_data => ret (JSON_stringify response_data)) w.
Proof. now destruct t. Qed.

(** X6.  For arguments whose [title] and [description] are strings, the
    validated input of a creating tool is [{title, description}], and the
    function of the tool sends it in exactly one POST to the collection
    of its status: no other key of the arguments reaches the store and
    the status travels in the path only.  A reply becomes the result,
    serialised; a refusal of the store is thrown as it is. *)
Theorem add_item_posts_validated_input
  (t : Status) (fields : list (string * json)) (title text : string) w :
  assoc "title" fields = Some (JStr title) ->
  assoc "description" fields = Some (JStr text) ->
  let input := JObj [ ("title", JStr title); ("description", JStr text) ] in
  let request := {| method := POST; url := endpoint t; body := Some input |} in
  Zod.safeParse (schema (add_tool t)) (JObj fields) = inr input /\
  http_log (fst (func (add_tool t) input w)) = http_log w ++ [ request ] /\
  snd (func (add_tool t) input w)
  = match snd (remote (ext w) request) with
    | HttpOk data => inr (JSON_stringify data)
    | HttpFail reason => inl (AxiosError reason)
    end.
Proof.
  intros Htitle Htext input request.
  split; [| split].
  - replace (schema (add_tool t)) with itemSchema by now destruct t.
    apply (proj2 (itemSchema_accepts _ _)).
    now exists fields, title, text.
  - rewrite func_add_tool. fold request. unfold bind.
    rewrite axios_request_outcome.
    now destruct (snd (remote (ext w) request)).
  - rewrite func_add_tool. fold request. unfold bind.
    rewrite axios_request_outcome.
    now destruct (snd (remote (ext w) request)).
Qed.

(** X7.  A listing tool ignores its input and keeps nothing between
    calls: called twice in a row it sends two GETs to the collection of
    its status, and each result is the serialised reply to its own
    request; the first refusal of the store stops the sequence. *)
Theorem get_items_twice (t : Status) (input1 input2 : json) w :
  let request := {| method := GET; url := endpoint t; body := undefined |} in
  let first := remote (ext w) request in
  let second := remote (fst first) request in
  bind (func (get_tool t) input1) (fun result1 =>
    bind (func (get_tool t) input2) (fun result2 =>
      ret (result1, result2))) w
  = match snd first, snd second with
    | HttpOk data1, HttpOk data2 =>
        ({| ext := fst second;
            http_log := http_log w ++ [ request; request ];
            model_log := model_log w |},
         inr (JSON_stringify data1, JSON_stringify data2))
    | HttpOk _, HttpFail reason =>
        ({| ext := fst second;
            http_log := http_log w ++ [ request; request ];
            model_log := model_log w |},
         inl (AxiosError reason))
    | HttpFail reason, _ =>
        ({| ext := fst first;
            http_log := http_log w ++ [ request ];
            model_log := model_log w |},
         inl (AxiosError reason))
    end.
Proof.
  intros request first second. unfold bind at 1. rewrite func_get_tool.
  unfold bind at 1. rewrite axios_request_outcome. fold request first.
  destruct (snd first) as [data1 | reason1]; [| reflexivity].
  unfold ret at 1. unfold bind at 1. rewrite func_get_tool.
  unfold bind at 1. rewrite axios_request_outcome.
  cbn [ext http_log model_log]. fold request second.
  rewrite <- List.app_assoc. cbn [app].
  now destruct (snd second) as [data2 | reason2].
Qed.


End ToolProperties.

Lemma add_item_posts_validated_input_witness :
  let fields := [ ("title", JStr "Write report"); ("owner", JStr "ann");
                  ("description", JStr "Q3 numbers") ] in
  let input := JObj [ ("title", JStr "Write report");
                      ("description", JStr "Q3 numbers") ] in
  assoc "title" fields = Some (JStr "Write report") /\
  assoc "description" fields = Some (JStr "Q3 numbers") /\
  Zod.safeParse (schema (@add_tool scripted completed)) (JObj fields)
  = inr input /\
  http_log (fst (func (@add_tool scripted completed) input (scripted_world 0)))
  = [ {| method := POST;
         url := "http://localhost:3000/api/workflows/completed";
         body := Some input |} ].
Proof.
  intros fields input.
  pose proof (@add_item_posts_validated_input scripted completed fields
                "Write report" "Q3 numbers" (scripted_world 0)
                eq_refl eq_refl) as (Hparse & Hlog & _).
  split; [reflexivity | split; [reflexivity | split]];
    [exact Hparse | exact Hlog].
Defined.

Lemma clearItems_schema_accepts_witness :
  Zod.safeParse (schema (@clearItems scripted))
    (JObj [ ("confirm", JBool true); ("type", JStr "completed") ])
  = inr (JObj [ ("type", JStr "completed") ]).
Proof.
  apply (proj2 (@clearItems_schema_accepts scripted _ _)).
  exists [ ("confirm", JBool true); ("type", JStr "completed") ], completed.
  repeat split.
Defined.


Section RegistryProperties.

Context {X : Externals}.

Lemma func_log_one (request : HttpRequest) (t : Tool) (input : json) w :
  func t input w =
  bind (axios_request request)
       (fun response_data => ret (JSON_stringify response_data)) w ->
  http_log (fst (func t input w)) = http_log w ++ [ request ].
Proof.
  intros ->. unfold bind. rewrite axios_request_outcome.
  now destruct (snd (remote (ext w) request)).
Qed.

(** X9.  Whatever tool of the registry runs, on an input that its own
    schema has let through, its function sends exactly one request, to
    the pending or to the completed collection and to nothing else, and
    does not invoke the model. *)
Theorem validated_tool_sends_one_request
  (t : Tool) (raw input : json) w :
  In t TOOLS ->
  Zod.safeParse (schema t) raw = inr input ->
  exists request,
    (url request = endpoint pending \/ url request = endpoint completed) /\
    http_log (fst (func t input w)) = http_log w ++ [ request ] /\
    model_log (fst (func t input w)) = model_log w.
Proof.
  intros Hin Hvalid.
  pose proof (tool_func_model_log t input w Hin) as Hmodel.
  cbn in Hin.
  destruct Hin as [<- | [<- | [<- | [<- | [<- | [<- | []]]]]]].
  - eexists. split; [| split; [apply func_log_one; reflexivity | exact Hmodel]].
    left. reflexivity.
  - eexists. split; [| split; [apply func_log_one; reflexivity | exact Hmodel]].
    right. reflexivity.
  - eexists. split; [| split; [apply func_log_one; reflexivity | exact Hmodel]].
    left. reflexivity.
  - eexists. split; [| split; [apply func_log_one; reflexivity | exact Hmodel]].
    right. reflexivity.
  - apply (proj1 (moveItemsSchema_accepts raw input)) in Hvalid
      as (fields & ids & t & _ & _ & _ & ->).
    eexists. split; [| split; [| exact Hmodel]].
    2: { apply func_log_one.
         apply (func_moveItems _ ids t w); now destruct t. }
    cbn [url]. destruct t; [now right | now left].
  - apply (proj1 (clearItems_schema_accepts raw input)) in Hvalid
      as (fields & t & _ & _ & ->).
    eexists. split; [| split; [| exact Hmodel]].
    2: { apply func_log_one. apply (func_clearItems _ t w). now destruct t. }
    cbn [url]. destruct t; [now left | now right].
Qed.

(** X10.  The names of the six tools are pairwise different, so looking a
    tool up by its own name in the registry finds that very tool. *)
Theorem tool_names_are_distinct :
  NoDup (List.map tool_name TOOLS) /\
  forall t, In t TOOLS ->
    List.find (fun t' => String.eqb (tool_name t') (tool_name t)) TOOLS
    = Some t.
Proof.
  split.
  - cbn. repeat constructor; cbn; intuition discriminate.
  - intros t Hin. cbn in Hin.
    destruct Hin as [<- | [<- | [<- | [<- | [<- | [<- | []]]]]]];
      reflexivity.
Qed.

(** ** A failing model *)

Lemma bind_throws {A B : Type} (c : Eff A) (k : A -> Eff B) w w' e :
  c w = (w', inl e) -> bind c k w = (w', inl e).
Proof. intros H. unfold bind. now rewrite H. Qed.

(** X11.  [callModel] does not catch a failure of the model: the failure
    is thrown out of the node and out of the run, after one model
    invocation and no request to the store, and no state comes back. *)
Theorem model_failure_ends_the_run
  (configuration : Configuration) (state : State) w (e' : Ext)
  (reason : string) (fuel : nat) :
  let input := SystemMessage
                 (system_content configuration (toISOString_now (ext w)))
               :: messages state in
  chat (ext w) (model configuration) input = (e', inl reason) ->
  let w' := {| ext := e'; http_log := http_log w;
               model_log := model_log w ++ [ input ] |} in
  callModel state configuration w = (w', inl (ModelError reason)) /\
  run configuration (S (S fuel)) "__start__" state w
  = (w', inl (ModelError reason)).
Proof.
  intros input Hdown w'.
  assert (Hcall : callModel state configuration w
                  = (w', inl (ModelError reason))).
  { unfold callModel, bind, Date_now_toISOString, chat_invoke.
    fold input. now rewrite Hdown. }
  split; [exact Hcall |].
  cbn [run]. change (String.eqb "__start__" "__end__") with false. cbv iota.
  unfold bind at 1.
  change (step configuration "__start__" state w)
    with (w, @inr exn _ ("callModel", state)).
  cbn [fst snd]. change (String.eqb "callModel" "__end__") with false.
  cbv iota. rewrite step_callModel.
  now rewrite (bind_throws _ _ _ _ _ (bind_throws _ _ _ _ _ Hcall)).
Qed.

End RegistryProperties.

Lemma validated_tool_sends_one_request_witness :
  let raw := JObj [ ("type", JStr "pending"); ("force", JBool true) ] in
  let input := JObj [ ("type", JStr "pending") ] in
  In (@clearItems scripted) TOOLS /\
  Zod.safeParse (schema (@clearItems scripted)) raw = inr input /\
  exists request,
    (url request = endpoint pending \/ url request = endpoint completed) /\
    http_log (fst (func (@clearItems scripted) input (scripted_world 0)))
    = http_log (scripted_world 0) ++ [ request ] /\
    model_log (fst (func (@clearItems scripted) input (scripted_world 0)))
    = model_log (scripted_world 0).
Proof.
  intros raw input.
  assert (Hin : In (@clearItems scripted) TOOLS) by (cbn; tauto).
  assert (Hvalid : Zod.safeParse (schema (@clearItems scripted)) raw
                   = inr input) by reflexivity.
  split; [exact Hin | split; [exact Hvalid |]].
  exact (@validated_tool_sends_one_request scripted clearItems raw input
           (scripted_world 0) Hin Hvalid).
Defined.

Lemma tool_names_are_distinct_witness :
  In (@moveItems scripted) TOOLS /\
  List.find (fun t' => String.eqb (tool_name t') "move_items")
    (@TOOLS scripted)
  = Some moveItems.
Proof.
  assert (Hin : In (@moveItems scripted) TOOLS) by (cbn; tauto).
  split; [exact Hin |].
  exact (proj2 (@tool_names_are_distinct scripted) moveItems Hin).
Defined.

Lemma model_failure_ends_the_run_witness :
  let w := @Build_World model_down 0 [] [] in
  let input := SystemMessage
                 (system_content scripted_configuration
                    "2024-05-01T10:00:00.000Z")
               :: messages user_asks in
  @chat model_down (ext w) (model scripted_configuration) input
  = (1, inl "503 Service Unavailable") /\
  @run model_down scripted_configuration 7 "__start__" user_asks w
  = (@Build_World model_down 1 [] [ input ],
     inl (ModelError "503 Service Unavailable")).
Proof.
  intros w input.
  assert (Hdown : @chat model_down (ext w) (model scripted_configuration)
                    input = (1, inl "503 Service Unavailable"))
    by reflexivity.
  split; [exact Hdown |].
  exact (proj2 (@model_failure_ends_the_run model_down scripted_configuration
                  user_asks w 1 "503 Service Unavailable" 5 Hdown)).
Defined.

Section RunProperties.

Context {X : Externals}.

(** ** Whole runs *)

Lemma run_at_end (configuration : Configuration) fuel state w :
  run configuration fuel "__end__" state w = (w, inr ("__end__", state)).
Proof. now destruct fuel. Qed.

Lemma callModel_returns (configuration : Configuration) state w w1 update :
  callModel state configuration w = (w1, inr update) ->
  exists text calls,
    update = {| messages := [ AIMessage text calls ] |} /\
    List.length (model_log w1) = S (List.length (model_log w)) /\
    http_log w1 = http_log w.
Proof.
  unfold callModel, bind, Date_now_toISOString, chat_invoke. intros H.
  destruct (chat _ _ _) as [e' [reason | response]]; [discriminate H |].
  injection H as <- <-.
  exists (content response), (tool_calls response). cbn [model_log http_log].
  repeat split. rewrite List.length_app. cbn [List.length]. lia.
Qed.

Lemma run_tool_call_http_log (call : ToolCall) w :
  List.length (http_log (fst (run_tool_call TOOLS call w)))
  <= S (List.length (http_log w)).
Proof.
  unfold run_tool_call.
  destruct (List.find _ TOOLS) as [t |] eqn:Hfind; [| cbn; lia].
  apply List.find_some in Hfind as [Hin _].
  unfold try_catch, bind, tool_invoke.
  destruct (Zod.safeParse (schema t) (call_args call)) as [issues | input];
    [cbn; lia |].
  destruct (tool_func_shape t input Hin) as [request Hshape].
  rewrite Hshape. unfold bind. rewrite axios_request_outcome.
  destruct (snd (remote (ext w) request)); cbn [fst http_log ret];
    rewrite List.length_app; cbn [List.length]; lia.
Qed.

Lemma for_each_run_tool_call_http_log (calls : list ToolCall) w :
  List.length (http_log (fst (for_each (run_tool_call TOOLS) calls w)))
  <= List.length (http_log w) + List.length calls.
Proof.
  revert w. induction calls as [| c calls IH]; intros w; [cbn; lia |].
  cbn [for_each List.length]. unfold bind at 1.
  pose proof (run_tool_call_http_log c w) as Hc.
  destruct (run_tool_call_total TOOLS c w) as (w1 & r & Hr & _).
  rewrite Hr in Hc |- *. cbn [fst] in Hc. specialize (IH w1).
  unfold bind, ret.
  destruct (for_each (run_tool_call TOOLS) calls w1) as [w2 [e | rs]];
    cbn [fst] in *; lia.
Qed.

Lemma ToolNode_logs (state : State) w w1 update :
  ToolNode TOOLS state w = (w1, inr update) ->
  model_log w1 = model_log w /\
  List.length (http_log w1)
  <= List.length (http_log w) + List.length (latest_requests state).
Proof.
  unfold ToolNode. intros H.
  apply bind_inversion in H as (wa & outputs & Hrun & Hret).
  injection Hret as <- _.
  pose proof (for_each_run_tool_call_model_log (latest_requests state) w) as Hm.
  pose proof (for_each_run_tool_call_http_log (latest_requests state) w) as Hh.
  rewrite Hrun in Hm, Hh. now split.
Qed.

Lemma answers_are_tool_results (calls : list ToolCall) (results : list Message) :
  Forall2 answers calls results ->
  List.filter is_ai results = [] /\
  List.filter is_tool_result results = results.
Proof.
  induction 1 as [| c r calls results (text & name & ->) _ [IHa IHt]];
    [now split |].
  cbn [List.filter is_ai is_tool_result]. now rewrite IHa, IHt.
Qed.

(** What a run that reaches [__end__] has added, by the node it started
    at, with the growth of the two logs. *)
Lemma run_rounds (configuration : Configuration) (fuel : nat) :
  forall node state w w' state',
    run configuration fuel node state w = (w', inr ("__end__", state')) ->
    (node = "__end__" /\ state' = state /\ w' = w) \/
    ((node = "__start__" \/ node = "callModel") /\
     exists new,
       messages state' = messages state ++ new /\ turns new /\
       List.length (model_log w')
       = List.length (model_log w) + List.length (List.filter is_ai new) /\
       List.length (http_log w')
       <= List.length (http_log w)
          + List.length (List.filter is_tool_result new)) \/
    (node = "tools" /\
     exists results rest,
       messages state' = messages state ++ results ++ rest /\
       Forall2 answers (latest_requests state) results /\ turns rest /\
       List.length (model_log w')
       = List.length (model_log w) + List.length (List.filter is_ai rest) /\
       List.length (http_log w')
       <= List.length (http_log w) + List.length results
          + List.length (List.filter is_tool_result rest)).
Proof.
  induction fuel as [| fuel IH]; intros node state w w' state' H.
  - injection H as <- -> <-. now left.
  - cbn [run] in H.
    destruct (String.eqb_spec node "__end__") as [-> | Hend].
    + injection H as <- <-. now left.
    + right. apply bind_inversion in H as (w1 & [node1 state1] & Hstep & Hrun).
      cbn [fst snd] in Hrun. unfold step in Hstep.
      destruct (String.eqb_spec node "__start__") as [-> | Hstart].
      { injection Hstep as <- <- <-.
        apply IH in Hrun as [(Habs & _) | [(_ & Hnew) | (Habs & _)]];
          try discriminate Habs.
        left. split; [now left | exact Hnew]. }
      destruct (String.eqb_spec node "callModel") as [-> | Hcall].
      { left. split; [now right |].
        apply bind_inversion in Hstep as (wa & update & Hmodel & Hret).
        injection Hret as <- <- <-.
        apply callModel_returns in Hmodel as (text & calls & -> & Hm & Hh).
        unfold add_messages in Hrun. cbn [messages] in Hrun.
        rewrite routeModelOutput_requests, latest_requests_last in Hrun.
        destruct (action_requests (AIMessage text calls)) as [| c cs] eqn:Hreq.
        - rewrite run_at_end in Hrun. injection Hrun as <- <-.
          exists [ AIMessage text calls ]. cbn [messages List.filter is_ai
            is_tool_result List.length].
          split; [reflexivity |].
          split; [exact (turns_answer text calls Hreq) |].
          rewrite Hh. split; lia.
        - apply IH in Hrun as [(Habs & _) | [([Habs | Habs] & _) | (_ & Hnew)]];
            try discriminate Habs.
          destruct Hnew as (results & rest & Hmsgs & Hall & Hturns & Hm' & Hh').
          cbn [messages] in Hmsgs. rewrite latest_requests_last, Hreq in Hall.
          destruct calls as [calls |]; [| discriminate Hreq].
          cbn [action_requests] in Hreq. subst calls.
          destruct (answers_are_tool_results _ _ Hall) as [Hai Htool].
          exists (AIMessage text (Some (c :: cs)) :: results ++ rest).
          split; [now rewrite Hmsgs, <- List.app_assoc |].
          split; [apply turns_round; [discriminate | exact Hall | exact Hturns] |].
          cbn [List.filter is_ai is_tool_result List.length].
          rewrite !List.filter_app, !List.length_app, Hai, Htool.
          rewrite Hh in Hh'. cbn [List.length]. lia. }
      destruct (String.eqb_spec node "tools") as [-> | Htools].
      { right. split; [reflexivity |].
        apply bind_inversion in Hstep as (wa & update & Hnode & Hret).
        injection Hret as <- <- <-.
        destruct (ToolNode_total TOOLS state w) as (wb & results & Hrun' & Hall).
        rewrite Hrun' in Hnode. injection Hnode as <- <-.
        apply ToolNode_logs in Hrun' as [Hm Hh].
        apply IH in Hrun as [(Habs & _) | [(_ & Hnew) | (Habs & _)]];
          try discriminate Habs.
        destruct Hnew as (new & Hmsgs & Hturns & Hm' & Hh').
        unfold add_messages in Hmsgs. cbn [messages] in Hmsgs.
        exists results, new.
        split; [now rewrite Hmsgs, <- List.app_assoc |].
        split; [exact Hall | split; [exact Hturns |]].
        rewrite (Forall2_length Hall) in Hh. rewrite Hm in Hm'. lia. }
      injection Hstep as <- <- <-.
      apply IH in Hrun as [(Habs & _) | [([Habs | Habs] & _) | (Habs & _)]];
        congruence.
Qed.

Lemma turns_last (new : list Message) :
  turns new ->
  exists pre text calls,
    new = pre ++ [ AIMessage text calls ] /\
    action_requests (AIMessage text calls) = [].
Proof.
  induction 1 as [text calls Hnone
                 | text calls results rest _ _ _ (pre & t & c & -> & Hnone)].
  - now exists [], text, calls.
  - exists (AIMessage text (Some calls) :: results ++ pre), t, c.
    split; [| exact Hnone]. cbn [app]. now rewrite <- List.app_assoc.
Qed.

(** X12.  A run of the graph that reaches [__end__] has added to the
    conversation a sequence of rounds, each a response that carries
    requests followed by one result per request, in order and tagged
    with the identifiers of the requests, and then a response that
    carries no request, which is the last message of the conversation. *)
Theorem finished_run_is_rounds
  (configuration : Configuration) (fuel : nat) state w w' state' :
  run configuration fuel "__start__" state w
  = (w', inr ("__end__", state')) ->
  exists new,
    messages state' = messages state ++ new /\ turns new /\
    exists pre text calls,
      messages state' = pre ++ [ AIMessage text calls ] /\
      action_requests (AIMessage text calls) = [].
Proof.
  intros H.
  apply run_rounds in H as [(Habs & _) | [(_ & Hnew) | (Habs & _)]];
    try discriminate Habs.
  destruct Hnew as (new & Hmsgs & Hturns & _).
  exists new. split; [exact Hmsgs | split; [exact Hturns |]].
  destruct (turns_last new Hturns) as (pre & text & calls & -> & Hnone).
  exists (messages state ++ pre), text, calls.
  split; [| exact Hnone]. now rewrite Hmsgs, List.app_assoc.
Qed.

(** X13.  In a run that reaches [__end__] the model is invoked exactly
    once for every response added to the conversation, and the store
    receives at most one request for every tool result added: nothing is
    retried and nothing is sent behind the conversation's back. *)
Theorem finished_run_counts
  (configuration : Configuration) (fuel : nat) state w w' state' :
  run configuration fuel "__start__" state w
  = (w', inr ("__end__", state')) ->
  exists new,
    messages state' = messages state ++ new /\
    List.length (model_log w')
    = List.length (model_log w) + List.length (List.filter is_ai new) /\
    List.length (http_log w')
    <= List.length (http_log w)
       + List.length (List.filter is_tool_result new).
Proof.
  intros H.
  apply run_rounds in H as [(Habs & _) | [(_ & Hnew) | (Habs & _)]];
    try discriminate Habs.
  destruct Hnew as (new & Hmsgs & _ & Hm & Hh).
  now exists new.
Qed.


End RunProperties.

Lemma finished_run_is_rounds_witness :
  let outcome := @run scripted scripted_configuration 10 "__start__"
                   user_asks (scripted_world 0) in
  let state' :=
    {| messages :=
         [ HumanMessage "tidy up my tasks";
           AIMessage EmptyString (Some scripted_calls);
           ToolMessage "[object Object]" "get_pending_items" "call_1";
           ToolMessage
             ("Error: Request failed with status code 500" ++ nl
              ++ " Please fix your mistakes.")
             "clear_items" "call_2";
           ToolMessage "[object Object]" "move_items" "call_3";
           AIMessage "Done." None ] |} in
  outcome = (fst outcome, inr ("__end__", state')) /\
  exists new,
    messages state' = messages user_asks ++ new /\ turns new /\
    exists pre text calls,
      messages state' = pre ++ [ AIMessage text calls ] /\
      action_requests (AIMessage text calls) = [].
Proof.
  intros outcome state'.
  assert (H : outcome = (fst outcome, inr ("__end__", state')))
    by (vm_compute; reflexivity).
  split; [exact H |].
  exact (@finished_run_is_rounds scripted scripted_configuration 10 user_asks
           (scripted_world 0) (fst outcome) state' H).
Defined.

Lemma finished_run_counts_witness :
  let outcome := @run scripted scripted_configuration 10 "__start__"
                   user_asks (scripted_world 0) in
  let state' :=
    {| messages :=
         [ HumanMessage "tidy up my tasks";
           AIMessage EmptyString (Some scripted_calls);
           ToolMessage "[object Object]" "get_pending_items" "call_1";
           ToolMessage
             ("Error: Request failed with status code 500" ++ nl
              ++ " Please fix your mistakes.")
             "clear_items" "call_2";
           ToolMessage "[object Object]" "move_items" "call_3";
           AIMessage "Done." None ] |} in
  outcome = (fst outcome, inr ("__end__", state')) /\
  exists new,
    messages state' = messages user_asks ++ new /\
    List.length (model_log (fst outcome))
    = List.length (model_log (scripted_world 0))
      + List.length (List.filter is_ai new) /\
    List.length (http_log (fst outcome))
    <= List.length (http_log (scripted_world 0))
       + List.length (List.filter is_tool_result new).
Proof.
  intros outcome state'.
  assert (H : outcome = (fst outcome, inr ("__end__", state')))
    by (vm_compute; reflexivity).
  split; [exact H |].
  exact (@finished_run_counts scripted scripted_configuration 10 user_asks
           (scripted_world 0) (fst outcome) state' H).
Defined.


Section ModelInputs.

Context {X : Externals}.




End ModelInputs.

